(** * multisteam.py: a verification development

    A shallow embedding of the policy layer of [src/multisteam.py]: the
    credential-file parser, the import walker, the session registry with its
    focus pointer and popup bookkeeping, the persisted configuration and the
    health monitor with its timers.

    Python [int] is [Z]; a Python [str] is a [string] whose characters are
    code points below 256; a [dict] with string keys is a [gmap string _];
    toolkit objects (views, popup windows) are records carrying an object
    identity; everything the toolkit or the operating system decides (dialog
    answers, the clock, file-system outcomes, script results) is an explicit
    argument of the operation that observes it. *)

From Stdlib Require Import ZArith Ascii String List Bool Lia.
From stdpp Require Import base tactics option list gmap strings pretty sorting.

#[local] Set Warnings "-register-all".

Local Open Scope string_scope.
Local Open Scope list_scope.
Local Open Scope Z_scope.

(** ** Python string primitives *)

Module Py.

(** [str.isspace] on one character: the ASCII controls 9-13 and 28-31, the
    space, NEL (133) and the no-break space (160). *)
Definition isspace (c : ascii) : bool :=
  let n := nat_of_ascii c in
  ((9 <=? n) && (n <=? 13))%nat || ((28 <=? n) && (n <=? 32))%nat
  || (n =? 133)%nat || (n =? 160)%nat.

Fixpoint lstrip (s : string) : string :=
  match s with
  | "" => ""
  | String c s' => if isspace c then lstrip s' else s
  end.

Fixpoint rstrip (s : string) : string :=
  match s with
  | "" => ""
  | String c s' =>
      match rstrip s' with
      | "" => if isspace c then "" else String c ""
      | r => String c r
      end
  end.

(** [s.strip()] *)
Definition strip (s : string) : string := rstrip (lstrip s).

(** [s.startswith(p)] *)
Definition startswith (s p : string) : bool := String.prefix p s.

(** [s.endswith(p)] *)
Fixpoint endswith (s p : string) : bool :=
  if decide (s = p) then true
  else match s with
       | "" => false
       | String _ s' => endswith s' p
       end.

(** [sub in s] *)
Fixpoint contains (sub s : string) : bool :=
  String.prefix sub s ||
  match s with
  | "" => false
  | String _ s' => contains sub s'
  end.

Fixpoint drop (n : nat) (s : string) : string :=
  match n, s with
  | O, _ => s
  | S n', String _ s' => drop n' s'
  | S _, "" => ""
  end.

(** The first occurrence of a non-empty separator: the text before it and
    the text after it. *)
Fixpoint cut (sep s : string) : option (string * string) :=
  if String.prefix sep s then Some ("", drop (String.length sep) s)
  else match s with
       | "" => None
       | String c s' =>
           match cut sep s' with
           | Some (a, b) => Some (String c a, b)
           | None => None
           end
       end.

(** [s.split(sep, 1)] *)
Definition split1 (sep s : string) : list string :=
  match cut sep s with
  | Some (a, b) => [a; b]
  | None => [s]
  end.

Definition is_crlf (c : ascii) : bool :=
  (nat_of_ascii c =? 13)%nat || (nat_of_ascii c =? 10)%nat.

(** [re.split(r"[\r\n]+", raw)]: the pieces between maximal runs of carriage
    returns and line feeds; [cur] is the piece being read, reversed, and
    [insep] tells that the previous character belonged to a separator. *)
Fixpoint resplit_go (s : string) (cur : string) (insep : bool) : list string :=
  match s with
  | "" => [String.rev cur]
  | String c s' =>
      if is_crlf c then
        if insep then resplit_go s' "" true
        else String.rev cur :: resplit_go s' "" true
      else resplit_go s' (String c cur) false
  end.

Definition resplit_crlf (raw : string) : list string := resplit_go raw "" false.

(** [c.lower()] for a code point below 256. *)
Definition lower_char (c : ascii) : ascii :=
  let n := nat_of_ascii c in
  if ((65 <=? n) && (n <=? 90))%nat
     || ((192 <=? n) && (n <=? 222) && negb (n =? 215))%nat
  then ascii_of_nat (n + 32) else c.

Fixpoint lower (s : string) : string :=
  match s with
  | "" => ""
  | String c s' => String (lower_char c) (lower s')
  end.

(** [sep.join(l)] *)
Fixpoint join (sep : string) (l : list string) : string :=
  match l with
  | [] => ""
  | [x] => x
  | x :: l' => x +:+ sep +:+ join sep l'
  end.

Definition LF : string := String (ascii_of_nat 10) "".
Definition CR : string := String (ascii_of_nat 13) "".

End Py.

(** ** The credential file parser *)

(** One turn of the [for ln in ...] loop of [parse_logpass_file]; [None] is
    the [ValueError] of unpacking [line.split(":", 1)] into two names. *)
Definition parse_logpass_step (out : list (string * string)) (ln : string)
  : option (list (string * string)) :=
  let line := Py.strip ln in
  if bool_decide (line = "") || Py.startswith line "#" then Some out
  else if negb (Py.contains ":" line) then Some out
  else match Py.split1 ":" line with
       | [login; pwd] =>
           let login := Py.strip login in
           let pwd := Py.strip pwd in
           if negb (bool_decide (login = "")) && negb (bool_decide (pwd = ""))
           then Some (out ++ [(login, pwd)])
           else Some out
       | _ => None
       end.

Fixpoint parse_logpass_loop (out : list (string * string)) (lns : list string)
  : option (list (string * string)) :=
  match lns with
  | [] => Some out
  | ln :: rest =>
      match parse_logpass_step out ln with
      | Some out' => parse_logpass_loop out' rest
      | None => None
      end
  end.

(** The body of [parse_logpass_file] once the text is read. *)
Definition parse_logpass_text (raw : string) : option (list (string * string)) :=
  parse_logpass_loop [] (Py.resplit_crlf raw).

(** What is found at a path that exists: a file whose text can be read
    ([read_text] with [errors="ignore"] decodes every byte sequence), or
    something [read_text] raises on (no permission, a directory). *)
Inductive File :=
| Readable (raw : string)
| Unreadable.

(** [parse_logpass_file(path)] over a file system that maps the paths that
    exist to what is found there; [None] is the exception that [read_text]
    raises, which nothing in the function catches. *)
Definition parse_logpass_file (fs : gmap string File) (path : string)
  : option (list (string * string)) :=
  match fs !! path with
  | None => Some []
  | Some Unreadable => None
  | Some (Readable raw) => parse_logpass_text raw
  end.

(** The pair one turn of the loop appends for a line, if any. *)
Definition pair_of_line (ln : string) : option (string * string) :=
  match parse_logpass_step [] ln with
  | Some [p] => Some p
  | _ => None
  end.

(** A line yields a pair when its trimmed text is not a comment and splits
    at its first colon into two fields that are not empty once trimmed; the
    pair holds the trimmed fields. *)
Inductive yields (ln : string) : string * string → Prop :=
| yields_fields a b :
    Py.strip ln = a +:+ ":" +:+ b →
    Py.contains ":" a = false →
    Py.startswith (Py.strip ln) "#" = false →
    Py.strip a ≠ "" →
    Py.strip b ≠ "" →
    yields ln (Py.strip a, Py.strip b).

(** ** URL predicates *)

(** A [QUrl] as the program observes it: [toString()] and [host()].  Parsing
    a text into a [QUrl] is the toolkit's work. *)
Record QUrl := { url_text : string; url_host : string }.

Definition STEAM_HOST_SUFFIXES : list string :=
  [ "steamcommunity.com"; "store.steampowered.com";
    "help.steampowered.com"; "login.steampowered.com" ].

Definition isSteamUrl (u : QUrl) : bool :=
  let host := Py.lower (url_host u) in
  existsb (fun h => Py.endswith host h) STEAM_HOST_SUFFIXES.

Definition urlIsLogin (u : QUrl) : bool :=
  Py.contains "login" (Py.lower (url_text u))
  && Py.endswith (url_host u) "steamcommunity.com".

Definition LOGIN_URL : QUrl :=
  {| url_text := "https://steamcommunity.com/login/home/?goto=";
     url_host := "steamcommunity.com" |}.

(** ** The import walker: [ImportLogPassController] *)

Module Walker.

Record t := {
  lines : list (string * string);
  index : Z;
  active : bool;
}.

(** What a handler does to the rest of the application. *)
Inductive effect :=
| NavigateToLogin                 (* view.setUrl(login page) *)
| Clipboard (text : string)       (* QApplication.clipboard().setText *)
| StatusStarted (from : Z)
| StatusCopied (text : string)
| StatusSkipped (remaining : Z)
| StatusConfirmed (done total : Z)
| StatusStopped
| InfoAllProcessed                (* the blocking "all entries processed" box *)
| SetLastImportIndex (i : Z)      (* owner._last_import_index = i *)
| EmitStopped.                    (* the [stopped] signal *)

(** The button the operator presses in the per-entry dialog. *)
Inductive clicked := BtnCopy | BtnSkip | BtnStop.

Definition len (w : t) : Z := Z.of_nat (length (lines w)).

(** [__init__(owner, lines, start_index)] *)
Definition init (lns : list (string * string)) (start_index : Z) : t * list effect :=
  let i := Z.max 0 (Z.min start_index (Z.of_nat (length lns))) in
  ({| lines := lns; index := i; active := true |}, [StatusStarted (i + 1)]).

(** [stop()] *)
Definition stop (w : t) : t * list effect :=
  if negb (active w) then (w, [])
  else ({| lines := lines w; index := index w; active := false |},
        [EmitStopped; StatusStopped]).

(** [finishAll()] *)
Definition finishAll (w : t) : t * list effect :=
  let '(w', e) := stop w in (w', InfoAllProcessed :: e).

(** [self.lines[self.index]]; [None] is Python's [IndexError].  A negative
    index counts from the end of the list. *)
Definition line_at (w : t) (i : Z) : option (string * string) :=
  if 0 <=? i then lines w !! Z.to_nat i
  else if 0 <=? len w + i then lines w !! Z.to_nat (len w + i)
  else None.

(** [onProfileAdded(name)]: [view] is the current location of
    [owner.browsers.get(name)], when there is such a view, and [btn] the
    operator's answer to the dialog, when it is shown. *)
Definition onProfileAdded (w : t) (view : option QUrl) (btn : clicked)
  : option (t * list effect) :=
  if negb (active w) || (len w <=? index w) then Some (w, [])
  else match view with
       | None => Some (w, [])
       | Some u =>
           let nav := if negb (urlIsLogin u) then [NavigateToLogin] else [] in
           match line_at w (index w) with
           | None => None
           | Some (login, pwd) =>
               let text_line := login +:+ ":" +:+ pwd in
               match btn with
               | BtnStop => let '(w', e) := stop w in Some (w', nav ++ e)
               | BtnSkip =>
                   let w1 := {| lines := lines w; index := index w + 1;
                                active := active w |} in
                   if len w1 <=? index w1
                   then let '(w', e) := finishAll w1 in Some (w', nav ++ e)
                   else Some (w1, nav ++ [StatusSkipped (len w1 - index w1)])
               | BtnCopy =>
                   Some (w, nav ++ [Clipboard text_line; StatusCopied text_line])
               end
           end
       end.

(** [onUrlChanged(url)] *)
Definition onUrlChanged (w : t) (url : QUrl) : t * list effect :=
  if negb (active w) || (len w <=? index w) then (w, [])
  else if isSteamUrl url && negb (urlIsLogin url) then
    let w1 := {| lines := lines w; index := index w + 1; active := active w |} in
    if len w1 <=? index w1
    then let '(w', e) := finishAll w1 in (w', SetLastImportIndex (index w1) :: e)
    else (w1, [SetLastImportIndex (index w1); StatusConfirmed (index w1) (len w1)])
  else (w, []).

(** The events a walker can receive. *)
Inductive event :=
| ProfileAdded (view : option QUrl) (btn : clicked)
| UrlChanged (url : QUrl)
| Stop.

Definition handle (w : t) (ev : event) : option (t * list effect) :=
  match ev with
  | ProfileAdded view btn => onProfileAdded w view btn
  | UrlChanged url => Some (onUrlChanged w url)
  | Stop => Some (stop w)
  end.


(** The context-menu entry "set the start line": the operator's 1-based
    line number [idx] becomes [start_index = idx - 1]. *)
Definition start_at_user_index (lns : list (string * string)) (idx : Z) : t :=
  fst (init lns (idx - 1)).





End Walker.

(** ** JSON documents and the Python built-ins applied to them *)

(** What [json.loads] returns for a document without floating-point numbers.
    An object lists its members in the order of the text. *)
Inductive json :=
| JNull
| JBool (b : bool)
| JInt (z : Z)
| JStr (s : string)
| JArr (l : list json)
| JObj (members : list (string * json)).

(** The [dict] of a JSON object: a key that occurs twice keeps its last
    value. *)
Definition dict_of (members : list (string * json)) : gmap string json :=
  list_to_map (reverse members).

(** One-character strings of a string, as iterating over a [str] yields. *)
Fixpoint chars (s : string) : list string :=
  match s with
  | "" => []
  | String c s' => String c "" :: chars s'
  end.

(** [bool(x)] *)
Definition py_bool (x : json) : bool :=
  match x with
  | JNull => false
  | JBool b => b
  | JInt z => negb (z =? 0)
  | JStr s => negb (bool_decide (s = ""))
  | JArr l => negb (bool_decide (l = []))
  | JObj m => negb (bool_decide (m = []))
  end.

Section Builtins.

(** [repr] of a value that is not a string, and [int] of a string, are the
    interpreter's; the program applies them only to documents it did not
    write itself. *)
Variable py_repr : json → string.
Variable py_int_of_str : string → option Z.

(** [str(x)] *)
Definition py_str (x : json) : string :=
  match x with
  | JStr s => s
  | _ => py_repr x
  end.

(** [int(x)]; [None] is a [TypeError] or [ValueError]. *)
Definition py_int (x : json) : option Z :=
  match x with
  | JInt z => Some z
  | JBool b => Some (if b then 1 else 0)
  | JStr s => py_int_of_str s
  | _ => None
  end.

(** [for x in v]; [None] is the [TypeError] of a value that is not
    iterable.  (The order of the keys of a [dict] is the order of first
    insertion; only [profiles] is iterated, and an application-written
    document holds a list there.) *)
Definition py_iter (v : json) : option (list json) :=
  match v with
  | JArr l => Some l
  | JStr s => Some (JStr <$> chars s)
  | JObj m => Some (JStr <$> reverse (remove_dups (reverse (m.*1))))
  | _ => None
  end.

(** [v.items()] as a dictionary; [None] is the [AttributeError] of a value
    that is not a [dict]. *)
Definition py_items (v : json) : option (gmap string json) :=
  match v with
  | JObj m => Some (dict_of m)
  | _ => None
  end.

(** ** The persisted configuration *)

Inductive ConfigFile :=
| NoFile                 (* the path does not exist *)
| Unparsable             (* [json.loads] raises *)
| Doc (o : json).        (* the parsed document *)

(** The fields of [MultiBrowser] that [loadConfig] and [saveConfig] touch. *)
Record Config := {
  cfg_profiles : list string;
  cfg_lastActive : string;
  cfg_lastUrls : gmap string string;
  cfg_accountsVisible : bool;
  cfg_accountsPanelDefaultWidth : Z;
  cfg_leftBarWidth : Z;
}.

(** The values of [MultiBrowser.__init__] before [loadConfig] runs. *)
Definition default_config : Config :=
  {| cfg_profiles := []; cfg_lastActive := ""; cfg_lastUrls := ∅;
     cfg_accountsVisible := false; cfg_accountsPanelDefaultWidth := 320;
     cfg_leftBarWidth := 160 |}.

(** [o.get(key, default)] on a parsed top-level object. *)
Definition get_or (m : gmap string json) (key : string) (dflt : json) : json :=
  default dflt (m !! key).

(** [loadConfig()]: [None] is an exception that leaves [__init__]; the
    restoring of the window geometry is the toolkit's and changes none of
    these fields. *)
Definition loadConfig (c : Config) (f : ConfigFile) : option Config :=
  match f with
  | NoFile => Some c
  | Unparsable => Some c
  | Doc (JObj members) =>
      let o := dict_of members in
      ps ← py_iter (get_or o "profiles" (JArr []));
      let profiles := py_str <$> ps in
      let lastActive := py_str (get_or o "last_active" (JStr "")) in
      us ← py_items (get_or o "last_urls" (JObj []));
      let lastUrls := py_str <$> us in
      let accountsVisible := py_bool (get_or o "accounts_visible" (JBool false)) in
      w ← py_int (get_or o "accounts_panel_width" (JInt (cfg_accountsPanelDefaultWidth c)));
      lw ← py_int (get_or o "leftbar_width" (JInt (cfg_leftBarWidth c)));
      Some {| cfg_profiles := profiles; cfg_lastActive := lastActive;
              cfg_lastUrls := lastUrls; cfg_accountsVisible := accountsVisible;
              cfg_accountsPanelDefaultWidth := w; cfg_leftBarWidth := lw |}
  | Doc _ => None
  end.

End Builtins.

(** The object that [saveConfig] serialises; [geo_hex] is the window
    geometry the toolkit reports.  The members of [last_urls] are listed in
    the order of the map, which stands for the insertion order of the
    [dict]. *)
Definition config_doc (c : Config) (geo_hex : string) : json :=
  JObj [ ("profiles", JArr (JStr <$> cfg_profiles c));
         ("last_active", JStr (cfg_lastActive c));
         ("last_urls", JObj (map_to_list (JStr <$> cfg_lastUrls c)));
         ("accounts_visible", JBool (cfg_accountsVisible c));
         ("accounts_panel_width", JInt (cfg_accountsPanelDefaultWidth c));
         ("leftbar_width", JInt (cfg_leftBarWidth c));
         ("win_geometry", JStr geo_hex) ].

(** [saveConfig()]: the file now holds the text of [config_doc], which
    [json.loads] parses back to the same document. *)
Definition saveConfig_file (c : Config) (geo_hex : string) : ConfigFile :=
  Doc (config_doc c geo_hex).

(** ** Views, popup windows and what the application does to the world *)

(** A reference to a view object: the [_profile_name] it was built with and
    its object identity. *)
Definition vref : Type := string * nat.

(** A [BrowserView] together with its [Page]. *)
Record View := {
  view_id : nat;              (* object identity *)
  profile_name : string;      (* property [_profile_name] *)
  view_url : string;          (* [url().toString()], empty for an empty URL *)
  last_fix_ms : Z;            (* [Page.last_fix_ms] *)
  lastRenderReloadMs : Z;     (* [getattr(self, "_lastRenderReloadMs", 0)] *)
  last_blank_fix_ms : Z;      (* property [_last_blank_fix_ms], or 0 *)
  blank_fix_tries : Z;        (* property [_blank_fix_tries], or 0 *)
}.

Definition ref_of (v : View) : vref := (profile_name v, view_id v).

(** A registered [PopupWindow]. *)
Record PopupWindow := {
  win_id : nat;               (* object identity *)
  win_visible : bool;
}.

(** The callbacks the program hands to timers and to asynchronous calls. *)
Inductive Callback :=
| CbReloadPage          (* console handler: [lambda: self.triggerAction(...)] *)
| CbReloadView          (* crash handler: [lambda: self.page().triggerAction(...)] *)
| CbCheckAfterCreate    (* [createProfile]: health check if the view has a location *)
| CbCheckAfterLoad      (* [_onProgress]: health check if the view is focused *)
| CbPostBlankJS         (* [self._postBlankJS] *)
| CbAfterHtml           (* [after_html], the result callback of [toHtml] *)
| CbMaybeReloadOnBlank. (* [self._maybeReloadOnBlank], the result callback of [runJavaScript] *)

(** A callback waiting to be delivered: [delay_ms] is the delay of
    [QTimer.singleShot], 0 for the result of an asynchronous call. *)
Record Pending := {
  delay_ms : Z;
  callback : Callback;
  target : vref;
}.

Inductive LogEntry :=
| JsError (src : string) (line : Z) (msg : string)
| RemoveDirFailed (e : string).

Inductive Effect :=
| Warn (e : LogEntry)                     (* [warn(...)]: a [W] line of the log *)
| StatusRemoveFailed (e : string)         (* the status-bar message of a failed removal *)
| Reload (v : vref) (focus : string)      (* [ReloadAndBypassCache] on [v] while [focus] is the current name *)
| CloseWindow (id : nat)                  (* [w.close()] *)
| DeleteLater (v : vref)                  (* [v.deleteLater()] *)
| Rmtree (path : string) (failed : option string)
| AskDelete (name : string)               (* the confirmation dialog *)
| EmitProfileAdded (name : string)
| EmitCurrentUrlChanged (u : string).

(** ** The main window: [MultiBrowser] *)

Record App := mkApp {
  profiles : list string;
  lastActive : string;
  currentName : string;              (* mirrored by the property [current_name] *)
  browsers : gmap string View;
  popupsByProfile : gmap string (list PopupWindow);
  lastUrls : gmap string string;
  accountsPanelDefaultWidth : Z;
  accountsVisible : bool;
  leftBarWidth : Z;
  (* the world around the object *)
  appData : string;                  (* [appDataDir()] *)
  geometry : string;                 (* [saveGeometry().toHex()] *)
  next_id : nat;                     (* the next object identity *)
  config_file : ConfigFile;          (* the file at [configPath()] *)
  dirs : gset string;                (* the profile directories on disk *)
  pending : list Pending;            (* callbacks not yet delivered *)
  trace : list Effect;               (* what was done, oldest first *)
}.

Definition set_profiles x a := mkApp x (lastActive a) (currentName a) (browsers a) (popupsByProfile a) (lastUrls a) (accountsPanelDefaultWidth a) (accountsVisible a) (leftBarWidth a) (appData a) (geometry a) (next_id a) (config_file a) (dirs a) (pending a) (trace a).
Definition set_lastActive x a := mkApp (profiles a) x (currentName a) (browsers a) (popupsByProfile a) (lastUrls a) (accountsPanelDefaultWidth a) (accountsVisible a) (leftBarWidth a) (appData a) (geometry a) (next_id a) (config_file a) (dirs a) (pending a) (trace a).
Definition set_currentName x a := mkApp (profiles a) (lastActive a) x (browsers a) (popupsByProfile a) (lastUrls a) (accountsPanelDefaultWidth a) (accountsVisible a) (leftBarWidth a) (appData a) (geometry a) (next_id a) (config_file a) (dirs a) (pending a) (trace a).
Definition set_browsers x a := mkApp (profiles a) (lastActive a) (currentName a) x (popupsByProfile a) (lastUrls a) (accountsPanelDefaultWidth a) (accountsVisible a) (leftBarWidth a) (appData a) (geometry a) (next_id a) (config_file a) (dirs a) (pending a) (trace a).
Definition set_popupsByProfile x a := mkApp (profiles a) (lastActive a) (currentName a) (browsers a) x (lastUrls a) (accountsPanelDefaultWidth a) (accountsVisible a) (leftBarWidth a) (appData a) (geometry a) (next_id a) (config_file a) (dirs a) (pending a) (trace a).
Definition set_lastUrls x a := mkApp (profiles a) (lastActive a) (currentName a) (browsers a) (popupsByProfile a) x (accountsPanelDefaultWidth a) (accountsVisible a) (leftBarWidth a) (appData a) (geometry a) (next_id a) (config_file a) (dirs a) (pending a) (trace a).
Definition set_accountsPanelDefaultWidth x a := mkApp (profiles a) (lastActive a) (currentName a) (browsers a) (popupsByProfile a) (lastUrls a) x (accountsVisible a) (leftBarWidth a) (appData a) (geometry a) (next_id a) (config_file a) (dirs a) (pending a) (trace a).
Definition set_accountsVisible x a := mkApp (profiles a) (lastActive a) (currentName a) (browsers a) (popupsByProfile a) (lastUrls a) (accountsPanelDefaultWidth a) x (leftBarWidth a) (appData a) (geometry a) (next_id a) (config_file a) (dirs a) (pending a) (trace a).
Definition set_next_id x a := mkApp (profiles a) (lastActive a) (currentName a) (browsers a) (popupsByProfile a) (lastUrls a) (accountsPanelDefaultWidth a) (accountsVisible a) (leftBarWidth a) (appData a) (geometry a) x (config_file a) (dirs a) (pending a) (trace a).
Definition set_config_file x a := mkApp (profiles a) (lastActive a) (currentName a) (browsers a) (popupsByProfile a) (lastUrls a) (accountsPanelDefaultWidth a) (accountsVisible a) (leftBarWidth a) (appData a) (geometry a) (next_id a) x (dirs a) (pending a) (trace a).
Definition set_dirs x a := mkApp (profiles a) (lastActive a) (currentName a) (browsers a) (popupsByProfile a) (lastUrls a) (accountsPanelDefaultWidth a) (accountsVisible a) (leftBarWidth a) (appData a) (geometry a) (next_id a) (config_file a) x (pending a) (trace a).
Definition set_pending x a := mkApp (profiles a) (lastActive a) (currentName a) (browsers a) (popupsByProfile a) (lastUrls a) (accountsPanelDefaultWidth a) (accountsVisible a) (leftBarWidth a) (appData a) (geometry a) (next_id a) (config_file a) (dirs a) x (trace a).
Definition set_trace x a := mkApp (profiles a) (lastActive a) (currentName a) (browsers a) (popupsByProfile a) (lastUrls a) (accountsPanelDefaultWidth a) (accountsVisible a) (leftBarWidth a) (appData a) (geometry a) (next_id a) (config_file a) (dirs a) (pending a) x.

(** Append to the record of what was done. *)
Definition emit (e : Effect) (a : App) : App := set_trace (trace a ++ [e]) a.

(** [QTimer.singleShot(delay, cb)] and the registration of a result callback. *)
Definition schedule (d : Z) (cb : Callback) (v : vref) (a : App) : App :=
  set_pending (pending a ++ [{| delay_ms := d; callback := cb; target := v |}]) a.

Definition DEFAULT_HOME_URL : string := "https://steamcommunity.com/".

(** The persisted part of the object. *)
Definition config_of (a : App) : Config :=
  {| cfg_profiles := profiles a; cfg_lastActive := lastActive a;
     cfg_lastUrls := lastUrls a; cfg_accountsVisible := accountsVisible a;
     cfg_accountsPanelDefaultWidth := accountsPanelDefaultWidth a;
     cfg_leftBarWidth := leftBarWidth a |}.

(** [saveConfig()] *)
Definition saveConfig (a : App) : App :=
  set_config_file (saveConfig_file (config_of a) (geometry a)) a.

(** [profileDir(name)]: the path, and the directory created on the way.
    The path is [Path(appDataDir()) / "profiles" / name] for a name that is
    one plain path segment, as every generated name is.  For any other name
    (empty, or holding a separator) [Path] nests or normalises the path, and
    the directories of two names can lie inside one another, which this
    plain text and the flat set [dirs] do not show; what is said about the
    directories of several sessions is said for generated names. *)
Definition profileDir_path (a : App) (name : string) : string :=
  appData a +:+ "/profiles/" +:+ name.

Definition profileDir (name : string) (a : App) : string * App :=
  let p := profileDir_path a name in (p, set_dirs ({[p]} ∪ dirs a) a).

(** [f"Steam {n}"] *)
Definition steamName (n : nat) : string := "Steam " +:+ pretty n.

(** The [while] loop of [nextSteamName] from counter [n]; [None] when
    [fuel] turns did not end it. *)
Fixpoint nextSteamName_loop (fuel : nat) (br : gmap string View) (n : nat) : option nat :=
  match fuel with
  | O => None
  | S fuel' =>
      if bool_decide (is_Some (br !! steamName n))
      then nextSteamName_loop fuel' br (n + 1)%nat
      else Some n
  end.

(** [nextSteamName()]: one turn more than there are live sessions always
    ends the loop (see [nextSteamName_total]). *)
Definition nextSteamName (a : App) : option string :=
  steamName <$> nextSteamName_loop (S (size (browsers a))) (browsers a) 1.

(** The visibility [showPopupsFor] gives to the windows registered under
    [key]: [showNormal()] and [raise_()] for the active profile, [hide()]
    for the others. *)
Definition show_or_hide (profileName key : string) (w : PopupWindow) : PopupWindow :=
  let isActive := bool_decide (key = profileName) in
  {| win_id := win_id w; win_visible := isActive |}.

(** [showPopupsFor(profileName)] *)
Definition showPopupsFor (profileName : string) (a : App) : App :=
  set_popupsByProfile
    (map_imap (fun (key : string) (wins : list PopupWindow) =>
                 Some (show_or_hide profileName key <$> wins))
              (popupsByProfile a)) a.

(** [v.setUrl(QUrl(url))] on the view registered under [name]. *)
Definition set_view_url (url : string) (v : View) : View :=
  {| view_id := view_id v; profile_name := profile_name v; view_url := url;
     last_fix_ms := last_fix_ms v; lastRenderReloadMs := lastRenderReloadMs v;
     last_blank_fix_ms := last_blank_fix_ms v; blank_fix_tries := blank_fix_tries v |}.

Definition is_blank_url (u : string) : bool :=
  bool_decide (u = "") || bool_decide (u = "about:blank").

(** [restore if restore else DEFAULT_HOME_URL] with
    [restore = self.lastUrls.get(acc, "")] *)
Definition restore_url (a : App) (acc : string) : string :=
  let restore := default "" (lastUrls a !! acc) in
  if bool_decide (restore = "") then DEFAULT_HOME_URL else restore.

(** [switchAccount(acc)] *)
Definition switchAccount (acc : string) (a : App) : App :=
  match browsers a !! acc with
  | None => a
  | Some v =>
      let a := set_currentName acc a in
      let a := if is_blank_url (view_url v)
               then set_browsers (<[acc := set_view_url (restore_url a acc) v]> (browsers a)) a
               else a in
      let a := set_lastActive acc a in
      let a := saveConfig a in
      showPopupsFor acc a
  end.

(** A new [BrowserView(profile, self, name)]. *)
Definition new_view (id : nat) (name : string) : View :=
  {| view_id := id; profile_name := name; view_url := "";
     last_fix_ms := 0; lastRenderReloadMs := 0;
     last_blank_fix_ms := 0; blank_fix_tries := 0 |}.

(** [createProfile(name, doSwitch)] *)
Definition createProfile (name : string) (doSwitch : bool) (a : App) : App :=
  let '(_, a) := profileDir name a in
  let view := new_view (next_id a) name in
  let a := set_next_id (S (next_id a)) a in
  let a := set_browsers (<[name := view]> (browsers a)) a in
  let a := schedule 1000 CbCheckAfterCreate (ref_of view) a in
  if doSwitch then switchAccount name a else a.

(** [navigateCurrent(url)]; [None] is the [KeyError] of
    [self.browsers[self.currentName]]. *)
Definition navigateCurrent (url : string) (a : App) : option App :=
  if bool_decide (currentName a = "") then Some a
  else match browsers a !! currentName a with
       | None => None
       | Some v => Some (set_browsers (<[currentName a := set_view_url url v]> (browsers a)) a)
       end.

(** [callOnCurrent(fn)], for the toolbar's back, forward and reload: the
    view handed to [fn]; [None] is the [KeyError]. *)
Definition callOnCurrent (a : App) : option (option View) :=
  if bool_decide (currentName a = "") then Some None
  else match browsers a !! currentName a with
       | None => None
       | Some v => Some (Some v)
       end.

(** [addAccount()]; [None] is an exception (or a name search that did not
    end). *)
Definition addAccount (a : App) : option App :=
  acc ← nextSteamName a;
  let a := createProfile acc true a in
  let a := if bool_decide (acc ∈ profiles a) then a
           else set_profiles (profiles a ++ [acc]) a in
  let a := set_lastActive acc a in
  let a := saveConfig a in
  v ← browsers a !! acc;
  a ← (if is_blank_url (view_url v)
       then navigateCurrent (restore_url a acc) a else Some a);
  Some (emit (EmitProfileAdded acc) a).

(** [l.remove(x)] for an [x] known to be in [l]: the first occurrence goes. *)
Fixpoint remove_first (x : string) (l : list string) : list string :=
  match l with
  | [] => []
  | y :: l' => if bool_decide (y = x) then l' else y :: remove_first x l'
  end.

(** [deleteProfile(name)]: [answer] is the operator's answer to the
    confirmation dialog and [rm] the outcome of [shutil.rmtree], [Some e]
    when it raises [e]. *)
Definition deleteProfile (name : string) (answer : bool) (rm : option string) (a : App) : App :=
  match browsers a !! name with
  | None => a
  | Some v =>
      let a := emit (AskDelete name) a in
      if negb answer then a
      else
        let a := set_browsers (delete name (browsers a)) a in
        let a := emit (DeleteLater (ref_of v)) a in
        let a := match popupsByProfile a !! name with
                 | None => a
                 | Some wins =>
                     let a := set_trace (trace a ++ (CloseWindow ∘ win_id <$> wins)) a in
                     set_popupsByProfile (delete name (popupsByProfile a)) a
                 end in
        let '(pdir, a) := profileDir name a in
        let a := if bool_decide (pdir ∈ dirs a) then
                   let a := emit (Rmtree pdir rm) a in
                   match rm with
                   | None => set_dirs (dirs a ∖ {[pdir]}) a
                   | Some e => emit (StatusRemoveFailed e) (emit (Warn (RemoveDirFailed e)) a)
                   end
                 else a in
        let a := if bool_decide (name ∈ profiles a)
                 then set_profiles (remove_first name (profiles a)) a else a in
        let a := set_lastUrls (delete name (lastUrls a)) a in
        let a := set_lastActive (match profiles a with p :: _ => p | [] => "" end) a in
        let a := saveConfig a in
        if bool_decide (lastActive a = "") then a else switchAccount (lastActive a) a
  end.

(** [registerPopup(profileName, win)] *)
Definition registerPopup (profileName : string) (win : PopupWindow) (a : App) : App :=
  let arr := default [] (popupsByProfile a !! profileName) in
  set_popupsByProfile (<[profileName := arr ++ [win]]> (popupsByProfile a)) a.

(** [arr.remove(win)] by object identity. *)
Fixpoint remove_window (id : nat) (arr : list PopupWindow) : list PopupWindow :=
  match arr with
  | [] => []
  | w :: arr' => if bool_decide (win_id w = id) then arr' else w :: remove_window id arr'
  end.

(** [unregisterPopup(profileName, win)] *)
Definition unregisterPopup (profileName : string) (id : nat) (a : App) : App :=
  match popupsByProfile a !! profileName with
  | None => a
  | Some [] => a
  | Some arr =>
      let arr' := remove_window id arr in
      match arr' with
      | [] => set_popupsByProfile (delete profileName (popupsByProfile a)) a
      | _ => set_popupsByProfile (<[profileName := arr']> (popupsByProfile a)) a
      end
  end.

(** [BrowserView.createWindow] on a view of profile [name]: the new popup
    is registered under [name] and shown only if [name] is the current
    name. *)
Definition createWindow (name : string) (a : App) : App :=
  let id := next_id a in
  let a := set_next_id (S (S id)) a in       (* the child view and the window *)
  let shown := bool_decide (currentName a = name) in
  registerPopup name {| win_id := S id; win_visible := shown |} a.

(** ** The health monitor of one view *)

Inductive MsgLevel := InfoMessageLevel | WarningMessageLevel | ErrorMessageLevel.

Definition FATAL_MARKERS : list string :=
  [ "ChunkLoadError"; "jQuery is not defined"; "Prototype is not defined" ].

(** What a handler of a view asks for. *)
Inductive Action :=
| ActWarn (e : LogEntry)
| ActSingleShot (d : Z) (cb : Callback)   (* [QTimer.singleShot(d, cb)] *)
| ActReload                               (* [triggerAction(ReloadAndBypassCache)] *)
| ActToHtml                               (* [page().toHtml(after_html)] *)
| ActRunJavaScript.                       (* [page().runJavaScript(js, world, _maybeReloadOnBlank)] *)

Definition set_last_fix_ms (x : Z) (v : View) : View :=
  {| view_id := view_id v; profile_name := profile_name v; view_url := view_url v;
     last_fix_ms := x; lastRenderReloadMs := lastRenderReloadMs v;
     last_blank_fix_ms := last_blank_fix_ms v; blank_fix_tries := blank_fix_tries v |}.

Definition set_lastRenderReloadMs (x : Z) (v : View) : View :=
  {| view_id := view_id v; profile_name := profile_name v; view_url := view_url v;
     last_fix_ms := last_fix_ms v; lastRenderReloadMs := x;
     last_blank_fix_ms := last_blank_fix_ms v; blank_fix_tries := blank_fix_tries v |}.

Definition set_last_blank_fix_ms (x : Z) (v : View) : View :=
  {| view_id := view_id v; profile_name := profile_name v; view_url := view_url v;
     last_fix_ms := last_fix_ms v; lastRenderReloadMs := lastRenderReloadMs v;
     last_blank_fix_ms := x; blank_fix_tries := blank_fix_tries v |}.

Definition set_blank_fix_tries (x : Z) (v : View) : View :=
  {| view_id := view_id v; profile_name := profile_name v; view_url := view_url v;
     last_fix_ms := last_fix_ms v; lastRenderReloadMs := lastRenderReloadMs v;
     last_blank_fix_ms := last_blank_fix_ms v; blank_fix_tries := x |}.

(** [Page.javaScriptConsoleMessage(level, msg, line, src)]; [cur] is the
    owner's [current_name] and [now] the clock. *)
Definition javaScriptConsoleMessage (cur : string) (v : View)
    (level : MsgLevel) (msg : string) (line : Z) (src : string) (now : Z)
  : View * list Action :=
  let logged := match level with
                | ErrorMessageLevel => [ActWarn (JsError src line msg)]
                | _ => []
                end in
  if existsb (fun s => Py.contains s msg) FATAL_MARKERS then
    if negb (bool_decide (cur = profile_name v)) then (v, logged)
    else if 5000 <? now - last_fix_ms v
         then (set_last_fix_ms now v, logged ++ [ActSingleShot 150 CbReloadPage])
         else (v, logged)
  else (v, logged).

(** [BrowserView._onRenderCrash(status, code)] *)
Definition _onRenderCrash (cur : string) (v : View) (now : Z) : View * list Action :=
  if negb (bool_decide (cur = profile_name v)) then (v, [])
  else
    let last := lastRenderReloadMs v in
    if now - last <? 5000 then (v, [])
    else (set_lastRenderReloadMs now v, [ActSingleShot 150 CbReloadView]).

(** [BrowserView._onProgress(percent)] *)
Definition _onProgress (v : View) (percent : Z) : View * list Action :=
  if percent =? 100 then (v, [ActSingleShot 800 CbCheckAfterLoad]) else (v, []).

(** [BrowserView.postLoadHealthcheck(_force)] *)
Definition postLoadHealthcheck (cur : string) (v : View) : View * list Action :=
  if negb (bool_decide (cur = profile_name v)) then (v, [])
  else if is_blank_url (view_url v) then (v, [])
  else (v, [ActToHtml; ActSingleShot 400 CbPostBlankJS]).

(** The nested [after_html(html)] of [postLoadHealthcheck]. *)
Definition after_html (v : View) (html : option string) (now : Z) : View * list Action :=
  let h := Py.strip (default "" html) in
  if negb (bool_decide (h = "")) && (50 <=? Z.of_nat (String.length h))
  then (set_blank_fix_tries 0 v, [])
  else
    let last := last_blank_fix_ms v in
    let tries := blank_fix_tries v in
    if (tries <? 3) && (5000 <? now - last)
    then (set_blank_fix_tries (tries + 1) (set_last_blank_fix_ms now v), [ActReload])
    else (v, []).

(** [BrowserView._postBlankJS()] *)
Definition _postBlankJS (v : View) : View * list Action := (v, [ActRunJavaScript]).

(** What the probe script sees, and what it returns. *)
Inductive Dom :=
| NoBody
| Body (text_length children heavy : Z)
| Throws.

Definition blank_probe (d : Dom) : json :=
  match d with
  | NoBody => JObj [("empty", JBool true)]
  | Body txt nodes heavy =>
      let okay := (20 <? txt) || (5 <? nodes) || (0 <? heavy) in
      JObj [("empty", JBool (negb okay))]
  | Throws => JObj [("empty", JBool false)]
  end.

(** [BrowserView._maybeReloadOnBlank(res)] *)
Definition _maybeReloadOnBlank (v : View) (res : json) (now : Z) : View * list Action :=
  let isBlank := match res with
                 | JObj m => py_bool (default JNull (dict_of m !! "empty"))
                 | _ => false
                 end in
  let last := last_blank_fix_ms v in
  let tries := blank_fix_tries v in
  if isBlank && (5000 <? now - last) && (tries <? 3)
  then (set_blank_fix_tries (tries + 1) (set_last_blank_fix_ms now v), [ActReload])
  else (v, []).

(** ** Events of the main window *)

(** What comes with the delivery of a callback. *)
Inductive Payload :=
| NoResult
| HtmlResult (html : option string)
| JsResult (res : json).

Inductive Event :=
| EvAddAccount
| EvSwitchAccount (acc : string)
| EvDeleteProfile (name : string) (answer : bool) (rm : option string)
| EvCreateWindow (name : string)
| EvPopupDestroyed (name : string) (id : nat)
| EvUrlChanged (name : string) (u : string)
| EvConsoleMessage (name : string) (level : MsgLevel) (msg : string) (line : Z) (src : string) (now : Z)
| EvRenderCrash (name : string) (now : Z)
| EvLoadProgress (name : string) (percent : Z)
| EvDeliver (k : nat) (p : Payload) (now : Z)
| EvToggleAccountsPanel
| EvSplitterMoved (sizes : list Z).

Definition perform (v : vref) (a : App) (act : Action) : App :=
  match act with
  | ActWarn e => emit (Warn e) a
  | ActSingleShot d cb => schedule d cb v a
  | ActReload => emit (Reload v (currentName a)) a
  | ActToHtml => schedule 0 CbAfterHtml v a
  | ActRunJavaScript => schedule 0 CbMaybeReloadOnBlank v a
  end.

(** Run a handler of the view registered under [name], if there is one. *)
Definition on_view (name : string) (f : View → View * list Action) (a : App) : App :=
  match browsers a !! name with
  | None => a
  | Some v =>
      let '(v', acts) := f v in
      foldl (perform (ref_of v)) (set_browsers (<[name := v']> (browsers a)) a) acts
  end.

(** The body of a delivered callback. *)
Definition run_callback (cb : Callback) (p : Payload) (now : Z) (cur : string) (v : View)
  : View * list Action :=
  match cb, p with
  | CbReloadPage, _ => (v, [ActReload])
  | CbReloadView, _ => (v, [ActReload])
  | CbCheckAfterCreate, _ =>
      if negb (is_blank_url (view_url v)) then postLoadHealthcheck cur v else (v, [])
  | CbCheckAfterLoad, _ =>
      if bool_decide (cur = profile_name v) then postLoadHealthcheck cur v else (v, [])
  | CbPostBlankJS, _ => _postBlankJS v
  | CbAfterHtml, HtmlResult html => after_html v html now
  | CbMaybeReloadOnBlank, JsResult res => _maybeReloadOnBlank v res now
  | _, _ => (v, [])
  end.

Fixpoint remove_nth {A} (k : nat) (l : list A) : list A :=
  match k, l with
  | _, [] => []
  | O, _ :: l' => l'
  | S k', x :: l' => x :: remove_nth k' l'
  end.

(** Delivery of the [k]-th waiting callback.  A callback whose view object
    is no longer registered does nothing. *)
Definition deliver (k : nat) (p : Payload) (now : Z) (a : App) : App :=
  match pending a !! k with
  | None => a
  | Some pd =>
      let a := set_pending (remove_nth k (pending a)) a in
      match browsers a !! (target pd).1 with
      | Some v =>
          if bool_decide (view_id v = (target pd).2)
          then on_view (target pd).1 (run_callback (callback pd) p now (currentName a)) a
          else a
      | None => a
      end
  end.

(** [_onUrlChanged(u, view)] for the view registered under [name]. *)
Definition _onUrlChanged (name : string) (u : string) (a : App) : App :=
  match browsers a !! name with
  | None => a
  | Some v =>
      let a := set_browsers (<[name := set_view_url u v]> (browsers a)) a in
      let a := if negb (bool_decide (currentName a = "")) && bool_decide (currentName a = name)
               then emit (EmitCurrentUrlChanged u) a else a in
      if negb (bool_decide (profile_name v = ""))
      then saveConfig (set_lastUrls (<[profile_name v := u]> (lastUrls a)) a)
      else a
  end.

(** [toggleAccountsPanel()] *)
Definition toggleAccountsPanel (a : App) : App :=
  saveConfig (set_accountsVisible (negb (accountsVisible a)) a).

(** [_onSplitterMoved(pos, index)] with [sizes = self.splitter.sizes()] *)
Definition _onSplitterMoved (sizes : list Z) (a : App) : App :=
  match sizes with
  | _ :: s1 :: _ =>
      if accountsVisible a
      then saveConfig (set_accountsPanelDefaultWidth (Z.max 240 (Z.min 480 s1)) a)
      else a
  | _ => a
  end.

(** One event of the event loop; [None] is an uncaught exception. *)
Definition handle (ev : Event) (a : App) : option App :=
  match ev with
  | EvAddAccount => addAccount a
  | EvSwitchAccount acc => Some (switchAccount acc a)
  | EvDeleteProfile name answer rm => Some (deleteProfile name answer rm a)
  | EvCreateWindow name => Some (createWindow name a)
  | EvPopupDestroyed name id => Some (unregisterPopup name id a)
  | EvUrlChanged name u => Some (_onUrlChanged name u a)
  | EvConsoleMessage name level msg line src now =>
      Some (on_view name (fun v => javaScriptConsoleMessage (currentName a) v level msg line src now) a)
  | EvRenderCrash name now =>
      Some (on_view name (fun v => _onRenderCrash (currentName a) v now) a)
  | EvLoadProgress name percent =>
      Some (on_view name (fun v => _onProgress v percent) a)
  | EvDeliver k p now => Some (deliver k p now a)
  | EvToggleAccountsPanel => Some (toggleAccountsPanel a)
  | EvSplitterMoved sizes => Some (_onSplitterMoved sizes a)
  end.

(** [MultiBrowser.__init__] after [loadConfig] produced [c]: [f] is the
    config file, [data] the data directory, [geo] the window geometry and
    [ds] the profile directories found on disk. *)
Definition boot (c : Config) (f : ConfigFile) (data geo : string) (ds : gset string) : App :=
  let a := {| profiles := cfg_profiles c; lastActive := cfg_lastActive c;
              currentName := ""; browsers := ∅; popupsByProfile := ∅;
              lastUrls := cfg_lastUrls c;
              accountsPanelDefaultWidth := cfg_accountsPanelDefaultWidth c;
              accountsVisible := cfg_accountsVisible c;
              leftBarWidth := cfg_leftBarWidth c;
              appData := data; geometry := geo; next_id := 0;
              config_file := f; dirs := ds; pending := []; trace := [] |} in
  let a := foldl (fun a name => createProfile name false a) a (profiles a) in
  if bool_decide (is_Some (browsers a !! lastActive a))
  then switchAccount (lastActive a) a else a.

(** The states the application can be in after starting from [c]. *)
Inductive reachable (c : Config) : App → Prop :=
| reach_boot f data geo ds : reachable c (boot c f data geo ds)
| reach_step a ev a' : reachable c a → handle ev a = Some a' → reachable c a'.

(** Run a list of events. *)
Fixpoint run_events (evs : list Event) (a : App) : option App :=
  match evs with
  | [] => Some a
  | ev :: rest => a' ← handle ev a; run_events rest a'
  end.

(** ** Failure signals of one view *)

Inductive Detector := Console | Blank | Crash.

Global Instance Detector_eq_dec : EqDecision Detector.
Proof. solve_decision. Defined.

(** What reaches a detector of a view. *)
Inductive Signal :=
| SigConsole (level : MsgLevel) (msg : string) (line : Z) (src : string)
| SigCrash
| SigHtml (html : option string)      (* the page text arrives at [after_html] *)
| SigJs (res : json).                 (* the probe result arrives at [_maybeReloadOnBlank] *)

(** A signal with the clock reading and the owner's current name at that
    moment. *)
Record Firing := {
  at_ms : Z;
  focus : string;
  signal : Signal;
}.

Definition detector_of (s : Signal) : Detector :=
  match s with
  | SigConsole _ _ _ _ => Console
  | SigCrash => Crash
  | SigHtml _ | SigJs _ => Blank
  end.

Definition fire (v : View) (f : Firing) : View * list Action :=
  match signal f with
  | SigConsole level msg line src =>
      javaScriptConsoleMessage (focus f) v level msg line src (at_ms f)
  | SigCrash => _onRenderCrash (focus f) v (at_ms f)
  | SigHtml html => after_html v html (at_ms f)
  | SigJs res => _maybeReloadOnBlank v res (at_ms f)
  end.

(** The actions that end in [ReloadAndBypassCache]. *)
Definition asks_reload (act : Action) : bool :=
  match act with
  | ActReload => true
  | ActSingleShot _ CbReloadPage => true
  | ActSingleShot _ CbReloadView => true
  | _ => false
  end.

(** The reloads a run of signals requests: which detector, and when. *)
Fixpoint reload_log (v : View) (fs : list Firing) : list (Detector * Z) :=
  match fs with
  | [] => []
  | f :: rest =>
      let '(v', acts) := fire v f in
      (if existsb asks_reload acts then [(detector_of (signal f), at_ms f)] else [])
      ++ reload_log v' rest
  end.

(** The view after a run of signals. *)
Fixpoint fire_all (v : View) (fs : list Firing) : View :=
  match fs with
  | [] => v
  | f :: rest => fire_all (fire v f).1 rest
  end.

(** The timestamp a detector keeps of its last reload. *)
Definition stamp (d : Detector) (v : View) : Z :=
  match d with
  | Console => last_fix_ms v
  | Blank => last_blank_fix_ms v
  | Crash => lastRenderReloadMs v
  end.

(** The test a detector applies to the time since its last reload. *)
Definition cooled (d : Detector) (last now : Z) : bool :=
  match d with
  | Crash => negb (now - last <? 5000)
  | _ => 5000 <? now - last
  end.

Definition times_of (d : Detector) (log : list (Detector * Z)) : list Z :=
  (filter (λ e, e.1 = d) log).*2.

(** Each time passes the detector's test against the one before it. *)
Fixpoint spaced (d : Detector) (last : Z) (ts : list Z) : Prop :=
  match ts with
  | [] => True
  | t :: ts' => cooled d last t = true ∧ spaced d t ts'
  end.

(** The claim of one cooldown shared by the detectors: whichever detector
    asked for a reload, no other request follows within 5000 ms. *)
Definition shared_cooldown (log : list (Detector * Z)) : Prop :=
  ∀ i d1 t1 d2 t2,
    log !! i = Some (d1, t1) → log !! S i = Some (d2, t2) → 5000 ≤ t2 - t1.

(** How the two blank checks judge a page. *)
Definition html_blank (html : option string) : bool :=
  let h := Py.strip (default "" html) in
  negb (negb (bool_decide (h = "")) && (50 <=? Z.of_nat (String.length h))).

Definition js_blank (res : json) : bool :=
  match res with
  | JObj m => py_bool (default JNull (dict_of m !! "empty"))
  | _ => false
  end.

Definition judged_blank (s : Signal) : bool :=
  match s with
  | SigHtml html => html_blank html
  | SigJs res => js_blank res
  | _ => false
  end.

(** ** Sample runs *)

Definition HOME : string := "https://steamcommunity.com/".

(** Two profiles are added and load the home page; the first is focused. *)
Definition two_sessions : list Event :=
  [ EvAddAccount; EvUrlChanged "Steam 1" HOME;
    EvAddAccount; EvUrlChanged "Steam 2" HOME;
    EvSwitchAccount "Steam 1" ].

(** ** Notions the registry properties are stated with *)

(** The popups as [showPopupsFor acc] leaves them. *)
Definition shown_for (acc : string) (P : gmap string (list PopupWindow))
  : gmap string (list PopupWindow) :=
  map_imap (λ (key : string) (wins : list PopupWindow),
              Some (show_or_hide acc key <$> wins)) P.

(** Every registered popup is shown exactly when its owner is the current
    name. *)
Definition popups_follow_focus (a : App) : Prop :=
  ∀ name wins w, popupsByProfile a !! name = Some wins → w ∈ wins →
    win_visible w = bool_decide (name = currentName a).

(** Events that leave the registry alone. *)
Definition same_registry (a a' : App) : Prop :=
  profiles a' = profiles a ∧ currentName a' = currentName a ∧
  popupsByProfile a' = popupsByProfile a ∧
  dom (browsers a') = dom (browsers a).

(** A name that [nextSteamName] can produce. *)
Definition generated (name : string) : Prop := ∃ k, name = steamName k.

(** What holds in every state the application can reach. *)
Definition registry_inv (c : Config) (a : App) : Prop :=
  popups_follow_focus a ∧
  (NoDup (cfg_profiles c) → NoDup (profiles a)) ∧
  (Forall generated (cfg_profiles c) → ∀ n, n ∈ dom (browsers a) → generated n).

(** ** Feature permissions and the address bar *)

Inductive PermissionPolicy := PermissionGrantedByUser | PermissionDeniedByUser.

(** The set [TRUST_HOSTS]. *)
Definition TRUST_HOSTS : list string :=
  [ "steamcommunity.com"; "store.steampowered.com";
    "help.steampowered.com"; "login.steampowered.com" ].

(** [BrowserView._onFeaturePerm(url, feat)]: the policy set for the
    feature, from [host = url.host()]. *)
Definition _onFeaturePerm (host : string) : PermissionPolicy :=
  if bool_decide (host ∈ TRUST_HOSTS)
  then PermissionGrantedByUser else PermissionDeniedByUser.

(** The text [navigateToUrl] hands to [QUrl] for what the address bar
    holds. *)
Definition typed_url (text : string) : string :=
  let url := Py.strip text in
  if negb (Py.startswith url "http://" || Py.startswith url "https://"
           || Py.startswith url "chrome://")
  then "https://" +:+ url else url.

(** [navigateToUrl()]: [text] is [self.urlBar.text()]; [None] is the
    [KeyError] of [self.browsers[self.currentName]]. *)
Definition navigateToUrl (text : string) (a : App) : option App :=
  if bool_decide (currentName a = "") then Some a
  else match browsers a !! currentName a with
       | None => None
       | Some v =>
           Some (set_browsers (<[currentName a := set_view_url (typed_url text) v]>
                                 (browsers a)) a)
       end.

(** A text with no white space at either end. *)
Definition trimmed (s : string) : Prop := Py.strip s = s.

(** A text that begins with one of the schemes [navigateToUrl] lets pass. *)
Definition has_scheme (u : string) : Prop :=
  Py.startswith u "http://" = true ∨ Py.startswith u "https://" = true
  ∨ Py.startswith u "chrome://" = true.

(** ** Log rotation *)

(** A file matched by [app_*.log] with its modification time. *)
Record LogFile := { log_name : string; log_mtime : Z }.

(** [sorted(files, key=mtime)]: a stable sort, written as the insertion of
    each file after the files that are not newer. *)
Fixpoint insert_by_mtime (f : LogFile) (l : list LogFile) : list LogFile :=
  match l with
  | [] => [f]
  | g :: l' =>
      if log_mtime f <? log_mtime g then f :: g :: l'
      else g :: insert_by_mtime f l'
  end.

Definition sorted_by_mtime (l : list LogFile) : list LogFile :=
  foldl (λ acc f, insert_by_mtime f acc) [] l.

(** The [while len(files) > keep] loop: the files handed to [unlink], oldest
    first, and the files left in the list.  An [unlink] that raises is
    ignored; [None] is the [IndexError] of [files.pop(0)] on an empty
    list. *)
Fixpoint rotateLogs_loop (files : list LogFile) (keep : Z) (unlinked : list LogFile)
  : option (list LogFile * list LogFile) :=
  if negb (keep <? Z.of_nat (length files)) then Some (unlinked, files)
  else match files with
       | [] => None
       | f :: rest => rotateLogs_loop rest keep (unlinked ++ [f])
       end.

(** [rotateLogs(log_dir, keep)]: [dir] lists the matching files of the
    directory, in the order [glob] yields them, when the directory exists. *)
Definition rotateLogs (dir : option (list LogFile)) (keep : Z)
  : option (list LogFile * list LogFile) :=
  match dir with
  | None => Some ([], [])
  | Some files => rotateLogs_loop (sorted_by_mtime files) keep []
  end.

(** Not newer than. *)
Definition mtime_le (f g : LogFile) : Prop := log_mtime f ≤ log_mtime g.

(** ** Starting an import *)




(** The import fields of [MultiBrowser]. *)
Record ImportState := {
  importCtl : option Walker.t;                  (* [_importCtl] *)
  last_import_file : option string;             (* [_last_import_file] *)
  last_import_lines : list (string * string);   (* [_last_import_lines] *)
  last_import_index : Z;                        (* [_last_import_index] *)
}.

Inductive ImportEffect :=
| WarnNoLines                        (* the "file is empty" warning box *)
| OfWalker (e : Walker.effect).

(** [if self._importCtl and self._importCtl.active: self._importCtl.stop()]:
    the [stopped] signal of a controller is connected to
    [setattr(self, "_importCtl", None)]. *)
Definition stop_running (ctl : option Walker.t) : option Walker.t * list ImportEffect :=
  match ctl with
  | Some w =>
      if Walker.active w
      then let '(_, e) := Walker.stop w in (None, OfWalker <$> e)
      else (Some w, [])
  | None => (None, [])
  end.

(** [startImportLogPass()]: [path] is what the file dialog returns, empty
    when it is cancelled; [None] is an exception. *)
Definition startImportLogPass (fs : gmap string File) (path : string) (s : ImportState)
  : option (ImportState * list ImportEffect) :=
  if bool_decide (path = "") then Some (s, [])
  else
    match parse_logpass_file fs path with
    | None => None
    | Some [] => Some (s, [WarnNoLines])
    | Some lines =>
        let '(_, e_stop) := stop_running (importCtl s) in
        let '(w, e_init) := Walker.init lines 0 in
        Some ({| importCtl := Some w; last_import_file := Some path;
                 last_import_lines := lines; last_import_index := 0 |},
              e_stop ++ (OfWalker <$> e_init))
    end.

(** [_importLogPassContextMenu(pos)]: [chosen] tells that the menu entry
    was picked, [path] is the answer of the file dialog (asked only when no
    lines are remembered), [idx] and [ok] the answer of the number dialog. *)
Definition _importLogPassContextMenu (fs : gmap string File) (chosen : bool)
    (path : string) (idx : Z) (ok : bool) (s : ImportState)
  : option (ImportState * list ImportEffect) :=
  if negb chosen then Some (s, [])
  else
    let loaded :=
      if bool_decide (last_import_lines s = []) then
        if bool_decide (path = "") then Some (inl (s, []))
        else match parse_logpass_file fs path with
             | None => None
             | Some [] => Some (inl (s, [WarnNoLines]))
             | Some lines =>
                 Some (inr {| importCtl := importCtl s; last_import_file := Some path;
                              last_import_lines := lines; last_import_index := 0 |})
             end
      else Some (inr s) in
    match loaded with
    | None => None
    | Some (inl early) => Some early
    | Some (inr s1) =>
        if negb ok then Some (s1, [])
        else
          let start := idx - 1 in
          let '(_, e_stop) := stop_running (importCtl s1) in
          let '(w, e_init) := Walker.init (last_import_lines s1) start in
          Some ({| importCtl := Some w; last_import_file := last_import_file s1;
                   last_import_lines := last_import_lines s1;
                   last_import_index := start |},
                e_stop ++ (OfWalker <$> e_init))
    end.

(** ** More notions for the registry *)

(** The configuration file holds what [saveConfig] writes for the state. *)
Definition synced (a : App) : Prop :=
  config_file a = saveConfig_file (config_of a) (geometry a).

(** The width of the accounts panel as [_onSplitterMoved] stores it. *)
Definition clamped (w : Z) : Prop := 240 ≤ w ≤ 480.

(** An event that left the disk alone, or rewrote the configuration; the
    panel width is kept or clamped. *)
Definition disk_follows (a a' : App) : Prop :=
  dirs a' = dirs a ∧ appData a' = appData a ∧ geometry a' = geometry a ∧
  next_id a' = next_id a ∧ leftBarWidth a' = leftBarWidth a ∧
  (accountsPanelDefaultWidth a' = accountsPanelDefaultWidth a
   ∨ clamped (accountsPanelDefaultWidth a')) ∧
  ((config_of a' = config_of a ∧ config_file a' = config_file a) ∨ synced a').

(** A popup registry with no empty list, whose windows were all created
    before object [n]. *)
Definition popups_wf_at (P : gmap string (list PopupWindow)) (n : nat) : Prop :=
  ∀ name wins, P !! name = Some wins →
    wins ≠ [] ∧ Forall (λ w, (win_id w < n)%nat) wins.

Definition popups_wf (a : App) : Prop :=
  popups_wf_at (popupsByProfile a) (next_id a).

(** The focus is empty, or on a live session, or no session is live. *)
Definition focus_ok (a : App) : Prop :=
  currentName a = "" ∨ is_Some (browsers a !! currentName a) ∨ browsers a = ∅.

(** The registry and the profile list hold the same names, no profile has
    the empty name, and every live session has its directory. *)
Definition registry_core (c : Config) (a : App) : Prop :=
  (NoDup (cfg_profiles c) → dom (browsers a) = list_to_set (profiles a)) ∧
  ("" ∉ cfg_profiles c → "" ∉ profiles a) ∧
  (∀ name, is_Some (browsers a !! name) → profileDir_path a name ∈ dirs a).

(** The registry, the profile list, the focus and the disk agree. *)
Definition registry_agrees (c : Config) (a : App) : Prop :=
  registry_core c a ∧
  (NoDup (cfg_profiles c) → "" ∉ cfg_profiles c → focus_ok a).

(** ** Failure recovery seen from the main window *)

(** The failure detectors and the deliveries of their callbacks. *)
Definition is_recovery_event (ev : Event) : bool :=
  match ev with
  | EvConsoleMessage _ _ _ _ _ _ | EvRenderCrash _ _ | EvLoadProgress _ _
  | EvDeliver _ _ _ => true
  | _ => false
  end.

Definition is_recovery_effect (e : Effect) : bool :=
  match e with
  | Warn _ | Reload _ _ => true
  | _ => false
  end.

(** What a recovery step may change: stamps and counters of views, waiting
    callbacks, and the trace, by log lines and reloads only. *)
Definition recovery_only (a a' : App) : Prop :=
  profiles a' = profiles a ∧ lastActive a' = lastActive a ∧
  currentName a' = currentName a ∧ popupsByProfile a' = popupsByProfile a ∧
  lastUrls a' = lastUrls a ∧ dirs a' = dirs a ∧ config_file a' = config_file a ∧
  (∀ n, view_url <$> browsers a' !! n = view_url <$> browsers a !! n) ∧
  (∀ n, ref_of <$> browsers a' !! n = ref_of <$> browsers a !! n) ∧
  ∃ es, trace a' = trace a ++ es ∧ Forall (λ e, is_recovery_effect e = true) es.

(** A handler of a view that keeps its identity and its location. *)
Definition keeps_page (f : View → View * list Action) : Prop :=
  ∀ v, view_url (f v).1 = view_url v ∧ ref_of (f v).1 = ref_of v.

(** The page as the probe script judges it. *)
Definition probe_empty (d : Dom) : Prop :=
  match d with
  | NoBody => True
  | Body txt nodes heavy => txt ≤ 20 ∧ nodes ≤ 5 ∧ heavy ≤ 0
  | Throws => False
  end.

(** ** Download progress *)

(** One firing of [receivedBytesChanged] or [totalBytesChanged]: the clock
    and what the request reports. *)
Record ProgressTick := { tick_now : Z; tick_received : Z; tick_total : Z }.

(** The nested [progress_update()] of [on_download]: the new
    [last_tick["ts"]] and the numbers shown in the status bar, if any. *)
Definition progress_update (last_tick : Z) (t : ProgressTick) : Z * option (Z * Z) :=
  let now := tick_now t in
  if now - last_tick <? 120 then (last_tick, None)
  else (now, if 0 <? tick_total t then Some (tick_received t, tick_total t) else None).

(** The progress messages of one download, each with the clock it was shown
    at; [last_tick] starts as [{"ts": 0}]. *)
Fixpoint progress_messages (last_tick : Z) (ts : list ProgressTick) : list (Z * (Z * Z)) :=
  match ts with
  | [] => []
  | t :: rest =>
      let '(last', shown) := progress_update last_tick t in
      match shown with
      | Some m => (tick_now t, m) :: progress_messages last' rest
      | None => progress_messages last' rest
      end
  end.

Definition on_download_progress (ts : list ProgressTick) : list (Z * (Z * Z)) :=
  progress_messages 0 ts.

(** * Properties *)

#[local] Set Warnings "-clear-no-such-hyp".

(** ** The credential file parser *)

Lemma append_cons c a b : String c a +:+ b = String c (a +:+ b).
Proof. reflexivity. Qed.

Lemma prefix_colon_cons c s :
  String.prefix ":" (String c s) = bool_decide (c = ":"%char).
Proof.
  cbn [String.prefix]. case_bool_decide; destruct (ascii_dec ":" c); destruct s; simpl; congruence.
Qed.

Lemma contains_colon_cons c s :
  Py.contains ":" (String c s) = bool_decide (c = ":"%char) || Py.contains ":" s.
Proof. cbn [Py.contains]. by rewrite prefix_colon_cons. Qed.

Lemma contains_colon_nil : Py.contains ":" "" = false.
Proof. reflexivity. Qed.

Lemma cut_colon_Some s a b :
  Py.cut ":" s = Some (a, b) → s = a +:+ ":" +:+ b ∧ Py.contains ":" a = false.
Proof.
  revert a. induction s as [|c s IH]; intros a; [done|].
  cbn [Py.cut]. rewrite prefix_colon_cons. case_bool_decide as Hc.
  - intros [= <- <-]. subst c. done.
  - destruct (Py.cut ":" s) as [[a' b']|] eqn:Hcut; [|done].
    intros [= <- <-]. destruct (IH a' eq_refl) as [-> Hno].
    split; [done|]. rewrite contains_colon_cons, Hno.
    by rewrite bool_decide_eq_false_2.
Qed.

Lemma cut_colon_intro a b :
  Py.contains ":" a = false → Py.cut ":" (a +:+ ":" +:+ b) = Some (a, b).
Proof.
  induction a as [|c a IH].
  - intros _. change ("" +:+ ":" +:+ b) with (String ":" b).
    cbn [Py.cut]. rewrite prefix_colon_cons, bool_decide_eq_true_2 by done.
    reflexivity.
  - rewrite contains_colon_cons. intros [Hc Ha]%orb_false_elim.
    rewrite append_cons. cbn [Py.cut]. rewrite prefix_colon_cons, Hc.
    by rewrite (IH Ha).
Qed.

Lemma cut_colon_None s : Py.cut ":" s = None ↔ Py.contains ":" s = false.
Proof.
  induction s as [|c s IH]; [done|].
  cbn [Py.cut]. rewrite prefix_colon_cons, contains_colon_cons.
  case_bool_decide; [done|]. simpl. rewrite <- IH.
  destruct (Py.cut ":" s) as [[]|]; done.
Qed.

Lemma contains_colon_app a b : Py.contains ":" (a +:+ ":" +:+ b) = true.
Proof.
  induction a as [|c a IH].
  - change ("" +:+ ":" +:+ b) with (String ":" b).
    by rewrite contains_colon_cons, bool_decide_eq_true_2.
  - rewrite append_cons, contains_colon_cons, IH. apply orb_true_r.
Qed.

Lemma contains_colon_lstrip s :
  Py.contains ":" s = false → Py.contains ":" (Py.lstrip s) = false.
Proof.
  induction s as [|c s IH]; [done|]. cbn [Py.lstrip].
  destruct (Py.isspace c); [|done].
  rewrite contains_colon_cons. intros [_ ?]%orb_false_elim. auto.
Qed.

Lemma contains_colon_rstrip s :
  Py.contains ":" s = false → Py.contains ":" (Py.rstrip s) = false.
Proof.
  induction s as [|c s IH]; [done|]. cbn [Py.rstrip].
  rewrite contains_colon_cons. intros [Hc Hs]%orb_false_elim.
  specialize (IH Hs). destruct (Py.rstrip s) as [|c' r].
  - destruct (Py.isspace c); [done|]. by rewrite contains_colon_cons, Hc.
  - by rewrite contains_colon_cons, Hc, IH.
Qed.

Lemma contains_colon_strip s :
  Py.contains ":" s = false → Py.contains ":" (Py.strip s) = false.
Proof. intros. by apply contains_colon_rstrip, contains_colon_lstrip. Qed.

Lemma startswith_hash_strip s :
  Py.startswith s "#" = true → Py.startswith (Py.strip s) "#" = true.
Proof.
  destruct s as [|c s]; [done|]. unfold Py.startswith. cbn [String.prefix].
  destruct (ascii_dec "#" c) as [<-|]; [|done]. intros _.
  unfold Py.strip. change (Py.lstrip (String "#" s)) with (String "#" s).
  cbn [Py.rstrip]. destruct (Py.rstrip s); cbn [String.prefix];
    by destruct (ascii_dec "#" "#").
Qed.

Lemma parse_logpass_step_pair out ln :
  parse_logpass_step out ln = Some (out ++ option_list (pair_of_line ln)).
Proof.
  unfold pair_of_line, parse_logpass_step.
  destruct (bool_decide (Py.strip ln = "") || Py.startswith (Py.strip ln) "#");
    [by rewrite app_nil_r|].
  destruct (Py.contains ":" (Py.strip ln)) eqn:Hc; cbn [negb];
    [|by rewrite app_nil_r].
  unfold Py.split1. destruct (Py.cut ":" (Py.strip ln)) as [[a b]|] eqn:Hcut.
  - destruct (negb (bool_decide (Py.strip a = "")) && negb (bool_decide (Py.strip b = "")));
      [done|by rewrite app_nil_r].
  - apply cut_colon_None in Hcut. congruence.
Qed.

Lemma parse_logpass_loop_omap lns out :
  parse_logpass_loop out lns = Some (out ++ omap pair_of_line lns).
Proof.
  revert out. induction lns as [|ln lns IH]; intros out; simpl.
  - by rewrite app_nil_r.
  - rewrite parse_logpass_step_pair, IH.
    destruct (pair_of_line ln); simpl; by rewrite <- ?app_assoc, ?app_nil_r.
Qed.

Lemma pair_of_line_yields ln p : pair_of_line ln = Some p ↔ yields ln p.
Proof.
  unfold pair_of_line, parse_logpass_step. split.
  - case_bool_decide as He; [done|]. cbn [orb].
    destruct (Py.startswith (Py.strip ln) "#") eqn:Hh; [done|].
    destruct (Py.contains ":" (Py.strip ln)) eqn:Hc; [|done]. cbn [negb].
    unfold Py.split1. destruct (Py.cut ":" (Py.strip ln)) as [[a b]|] eqn:Hcut; [|done].
    apply cut_colon_Some in Hcut as [Hs Ha].
    case_bool_decide as H1; [done|]. case_bool_decide as H2; [done|].
    cbn [negb andb app]. intros [= <-]. by constructor.
  - intros [a b Hs Ha Hh Hna Hnb].
    rewrite Hh, Hs, contains_colon_app. unfold Py.split1.
    rewrite cut_colon_intro by done.
    rewrite !bool_decide_eq_false_2; [done|done|done|].
    destruct a; done.
Qed.

Lemma pair_of_line_blank ln : Py.strip ln = "" → pair_of_line ln = None.
Proof. intros H. unfold pair_of_line, parse_logpass_step. by rewrite H. Qed.

Lemma pair_of_line_no_colon ln : Py.contains ":" ln = false → pair_of_line ln = None.
Proof.
  intros H%contains_colon_strip. unfold pair_of_line, parse_logpass_step.
  rewrite H. cbn [negb].
  by destruct (bool_decide (Py.strip ln = "") || Py.startswith (Py.strip ln) "#").
Qed.

Lemma pair_of_line_hash ln : Py.startswith ln "#" = true → pair_of_line ln = None.
Proof.
  intros H%startswith_hash_strip. unfold pair_of_line, parse_logpass_step.
  rewrite H, orb_true_r. done.
Qed.

Lemma pair_of_line_empty_field ln a b :
  Py.strip ln = a +:+ ":" +:+ b → Py.contains ":" a = false →
  Py.strip a = "" ∨ Py.strip b = "" → pair_of_line ln = None.
Proof.
  intros Hs Ha Hempty. destruct (pair_of_line ln) as [p|] eqn:Hp; [|done].
  apply pair_of_line_yields in Hp as [a' b' Hs' Ha' _ Hna Hnb].
  assert (Py.cut ":" (Py.strip ln) = Some (a, b)) as H1
    by (rewrite Hs; by apply cut_colon_intro).
  assert (Py.cut ":" (Py.strip ln) = Some (a', b')) as H2
    by (rewrite Hs'; by apply cut_colon_intro).
  rewrite H1 in H2. injection H2 as <- <-. tauto.
Qed.

(** C8.  The parser turns every line of the text into at most one pair:
    the result is the list of the pairs of the lines, in order, and a line
    has a pair exactly when its trimmed text is not a comment and splits at
    its first colon into two fields that are not empty after trimming, the
    pair being the two trimmed fields.  So blank lines, lines that begin
    with [#], lines without a colon and lines with an empty field give
    nothing.  The five sample lines parse to [a:1], [b:2], [c:3], and a walk
    started at line 2 (counting from 1) is at the pair [b:2], which the
    first "copy" puts on the clipboard. *)
Theorem parse_logpass_file_lines :
  (∀ raw, parse_logpass_text raw = Some (omap pair_of_line (Py.resplit_crlf raw))) ∧
  (∀ ln p, pair_of_line ln = Some p ↔ yields ln p) ∧
  (∀ ln, Py.strip ln = "" → pair_of_line ln = None) ∧
  (∀ ln, Py.startswith ln "#" = true → pair_of_line ln = None) ∧
  (∀ ln, Py.contains ":" ln = false → pair_of_line ln = None) ∧
  (∀ ln a b, Py.strip ln = a +:+ ":" +:+ b → Py.contains ":" a = false →
             Py.strip a = "" ∨ Py.strip b = "" → pair_of_line ln = None) ∧
  let text := Py.join Py.LF ["a:1"; "b:2"; "# comment"; ""; "c:3"] in
  let parsed := [("a", "1"); ("b", "2"); ("c", "3")] in
  Py.resplit_crlf text = ["a:1"; "b:2"; "# comment"; "c:3"] ∧
  parse_logpass_file {["logpass.txt" := Readable text]} "logpass.txt" = Some parsed ∧
  let w := Walker.start_at_user_index parsed 2 in
  Walker.line_at w (Walker.index w) = Some ("b", "2") ∧
  Walker.onProfileAdded w (Some LOGIN_URL) Walker.BtnCopy
    = Some (w, [Walker.Clipboard "b:2"; Walker.StatusCopied "b:2"]).
Proof.
  split; [intros raw; apply (parse_logpass_loop_omap _ [])|].
  split; [apply pair_of_line_yields|].
  split; [apply pair_of_line_blank|].
  split; [apply pair_of_line_hash|].
  split; [apply pair_of_line_no_colon|].
  split; [apply pair_of_line_empty_field|].
  intros text parsed. split; [reflexivity|]. split.
  - unfold parse_logpass_file. rewrite lookup_singleton_eq. reflexivity.
  - intros w. split; vm_compute; reflexivity.
Qed.

(** ** The import walker *)

Module WalkerFacts.
Import Walker.



Lemma stop_active w : active w = true → stop w = ({| lines := lines w; index := index w; active := false |}, [EmitStopped; StatusStopped]).
Proof. unfold stop. by intros ->. Qed.






End WalkerFacts.


(** ** The persisted configuration *)

Lemma dict_of_map_to_list (m : gmap string json) : dict_of (map_to_list m) = m.
Proof.
  unfold dict_of. rewrite <- (list_to_map_to_list m) at 2.
  apply list_to_map_proper.
  - rewrite fmap_reverse, reverse_Permutation. apply NoDup_fst_map_to_list.
  - apply reverse_Permutation.
Qed.

Lemma py_str_JStr_list (py_repr : json → string) (l : list string) :
  py_str py_repr <$> (JStr <$> l) = l.
Proof. rewrite <- list_fmap_compose. by rewrite list_fmap_id. Qed.

Lemma py_str_JStr_map (py_repr : json → string) (m : gmap string string) :
  py_str py_repr <$> (JStr <$> m) = m.
Proof. rewrite <- map_fmap_compose. by rewrite map_fmap_id. Qed.

Lemma loadConfig_config_doc py_repr py_int_of_str (c0 c : Config) (geo : string) :
  loadConfig py_repr py_int_of_str c0 (Doc (config_doc c geo)) = Some c.
Proof.
  destruct c as [ps la us av w lw]. unfold loadConfig, config_doc, get_or, dict_of.
  cbn [cfg_profiles cfg_lastActive cfg_lastUrls cfg_accountsVisible
       cfg_accountsPanelDefaultWidth cfg_leftBarWidth].
  cbn [reverse rev_append list_to_map foldr uncurry].
  cbn [fst snd].
  repeat first [rewrite lookup_insert_eq | rewrite lookup_insert_ne by (intros [=])].
  cbn [default from_option id py_iter py_items py_int py_bool mbind option_bind py_str].
  by rewrite dict_of_map_to_list, py_str_JStr_list, py_str_JStr_map.
Qed.

(** C9.  Reading back the document that [saveConfig] wrote yields the
    profile list, the last active name and the URL map of the state that
    was saved (and its layout fields), whatever the fields held before the
    read. *)
Theorem config_round_trip (py_repr : json → string)
    (py_int_of_str : string → option Z) (a : App) (c0 : Config) :
  ∃ c, loadConfig py_repr py_int_of_str c0 (config_file (saveConfig a)) = Some c ∧
       cfg_profiles c = profiles a ∧
       cfg_lastActive c = lastActive a ∧
       cfg_lastUrls c = lastUrls a ∧
       c = config_of (saveConfig a).
Proof.
  exists (config_of a). split; [apply loadConfig_config_doc|]. done.
Qed.

(** ** The session registry *)

Ltac app_simpl :=
  cbn [profiles lastActive currentName browsers popupsByProfile lastUrls
       accountsPanelDefaultWidth accountsVisible leftBarWidth appData geometry
       next_id config_file dirs pending trace
       set_profiles set_lastActive set_currentName set_browsers
       set_popupsByProfile set_lastUrls set_accountsPanelDefaultWidth
       set_accountsVisible set_next_id set_config_file set_dirs set_pending
       set_trace emit schedule saveConfig showPopupsFor profileDir fst snd] in *.

Lemma steamName_inj n m : steamName n = steamName m → n = m.
Proof.
  unfold steamName. intros H. apply (inj (String.append "Steam ")) in H.
  by apply (inj pretty) in H.
Qed.

Lemma steamName_nonempty n : steamName n ≠ "".
Proof. done. Qed.

Section nextSteamName.

Implicit Types br : gmap string View.

Lemma nextSteamName_loop_ext fuel br br' n :
  (∀ m, (n ≤ m)%nat → is_Some (br !! steamName m) ↔ is_Some (br' !! steamName m)) →
  nextSteamName_loop fuel br n = nextSteamName_loop fuel br' n.
Proof.
  revert n. induction fuel as [|fuel IH]; intros n Hext; [done|].
  cbn [nextSteamName_loop].
  rewrite (bool_decide_ext _ _ (Hext n (le_n n))).
  case_bool_decide; [|done]. apply IH. intros m Hm. apply Hext. lia.
Qed.

Lemma nextSteamName_loop_total fuel br n :
  (size br < fuel)%nat → is_Some (nextSteamName_loop fuel br n).
Proof.
  revert br n. induction fuel as [|fuel IH]; intros br n Hsize; [lia|].
  cbn [nextSteamName_loop]. case_bool_decide as Hin; [|by eexists].
  rewrite (nextSteamName_loop_ext fuel br (delete (steamName n) br)).
  - apply IH. pose proof (map_size_delete_Some (steamName n) br Hin).
    pose proof (map_size_ne_0_lookup_2 br (steamName n) Hin). lia.
  - intros m Hm. rewrite lookup_delete_ne; [done|].
    intros E%steamName_inj. lia.
Qed.

Lemma nextSteamName_loop_sound fuel br n k :
  nextSteamName_loop fuel br n = Some k →
  (n ≤ k)%nat ∧ br !! steamName k = None ∧
  ∀ m, (n ≤ m < k)%nat → is_Some (br !! steamName m).
Proof.
  revert n. induction fuel as [|fuel IH]; intros n; [done|].
  cbn [nextSteamName_loop]. case_bool_decide as Hin.
  - intros (? & ? & Hbelow)%IH. split; [lia|]. split; [done|].
    intros m Hm. destruct (decide (m = n)) as [->|]; [done|]. apply Hbelow. lia.
  - intros [= <-]. split; [lia|]. split; [|intros; lia].
    by apply eq_None_not_Some.
Qed.

End nextSteamName.

Lemma switchAccount_None acc a : browsers a !! acc = None → switchAccount acc a = a.
Proof. unfold switchAccount. by intros ->. Qed.

Lemma switchAccount_Some acc a v :
  browsers a !! acc = Some v →
  let a' := switchAccount acc a in
  profiles a' = profiles a ∧
  currentName a' = acc ∧
  lastActive a' = acc ∧
  dom (browsers a') = dom (browsers a) ∧
  (∃ v', browsers a' !! acc = Some v' ∧ view_id v' = view_id v ∧
         profile_name v' = profile_name v) ∧
  popupsByProfile a' = shown_for acc (popupsByProfile a) ∧
  lastUrls a' = lastUrls a ∧
  dirs a' = dirs a ∧ trace a' = trace a ∧ appData a' = appData a ∧
  config_file a' = saveConfig_file (config_of a') (geometry a').
Proof.
  intros Hv a'. subst a'. unfold switchAccount. rewrite Hv.
  destruct (is_blank_url (view_url v)); app_simpl.
  - rewrite dom_insert_L, lookup_insert_eq.
    assert (acc ∈ dom (browsers a)) by (apply elem_of_dom; eauto).
    repeat split; eauto; set_solver.
  - repeat split; eauto.
Qed.

Lemma shown_for_lookup acc P name :
  shown_for acc P !! name = fmap (show_or_hide acc name) <$> (P !! name).
Proof. unfold shown_for. rewrite map_lookup_imap. by destruct (P !! name). Qed.

Lemma shown_for_follow a acc P :
  popupsByProfile a = shown_for acc P → currentName a = acc → popups_follow_focus a.
Proof.
  intros HP Hc name wins w. rewrite HP, shown_for_lookup, Hc.
  destruct (P !! name) as [wins0|]; [|done]. intros [= <-].
  intros (w0 & -> & _)%list_elem_of_fmap. done.
Qed.

Lemma shown_for_ids acc P name :
  fmap win_id <$> (shown_for acc P !! name) = fmap win_id <$> (P !! name).
Proof.
  rewrite shown_for_lookup. destruct (P !! name) as [wins|]; [|done].
  cbn. f_equal. rewrite <- list_fmap_compose. by apply list_fmap_ext.
Qed.

Lemma createProfile_false name a :
  let a' := createProfile name false a in
  profiles a' = profiles a ∧
  currentName a' = currentName a ∧
  lastActive a' = lastActive a ∧
  browsers a' = <[name := new_view (next_id a) name]> (browsers a) ∧
  popupsByProfile a' = popupsByProfile a ∧
  lastUrls a' = lastUrls a ∧
  dirs a' = {[profileDir_path a name]} ∪ dirs a ∧
  trace a' = trace a ∧ appData a' = appData a.
Proof. done. Qed.

Lemma createProfile_true name a :
  createProfile name true a = switchAccount name (createProfile name false a).
Proof. done. Qed.

Lemma navigateCurrent_spec url a v :
  currentName a ≠ "" → browsers a !! currentName a = Some v →
  ∃ a', navigateCurrent url a = Some a' ∧
    profiles a' = profiles a ∧ currentName a' = currentName a ∧
    lastActive a' = lastActive a ∧
    dom (browsers a') = dom (browsers a) ∧
    popupsByProfile a' = popupsByProfile a ∧ lastUrls a' = lastUrls a ∧
    dirs a' = dirs a ∧ trace a' = trace a ∧ appData a' = appData a ∧
    config_file a' = config_file a ∧ geometry a' = geometry a ∧
    config_of a' = config_of a.
Proof.
  intros Hne Hv. unfold navigateCurrent.
  rewrite bool_decide_eq_false_2, Hv by done.
  eexists. split; [done|]. app_simpl. rewrite dom_insert_L.
  assert (currentName a ∈ dom (browsers a)) by (apply elem_of_dom; eauto).
  repeat split; eauto. set_solver.
Qed.

Lemma addAccount_spec a :
  ∃ k a', nextSteamName_loop (S (size (browsers a))) (browsers a) 1 = Some k ∧
    addAccount a = Some a' ∧
    profiles a' = (if bool_decide (steamName k ∈ profiles a)
                   then profiles a else profiles a ++ [steamName k]) ∧
    currentName a' = steamName k ∧
    lastActive a' = steamName k ∧
    dom (browsers a') = {[steamName k]} ∪ dom (browsers a) ∧
    popupsByProfile a' = shown_for (steamName k) (popupsByProfile a) ∧
    lastUrls a' = lastUrls a ∧
    dirs a' = {[profileDir_path a (steamName k)]} ∪ dirs a ∧
    appData a' = appData a ∧
    trace a' = trace a ++ [EmitProfileAdded (steamName k)] ∧
    config_file a' = saveConfig_file (config_of a') (geometry a').
Proof.
  destruct (nextSteamName_loop_total (S (size (browsers a))) (browsers a) 1)
    as [k Hk]; [lia|].
  exists k. unfold addAccount, nextSteamName. rewrite Hk. cbn [fmap option_fmap option_map mbind option_bind].
  rewrite createProfile_true.
  set (a1 := createProfile (steamName k) false a).
  destruct (createProfile_false (steamName k) a)
    as (Hp1 & Hc1 & Hl1 & Hb1 & Hpop1 & Hu1 & Hd1 & Ht1 & Ha1). fold a1 in Hp1, Hc1, Hl1, Hb1, Hpop1, Hu1, Hd1, Ht1, Ha1.
  assert (browsers a1 !! steamName k = Some (new_view (next_id a) (steamName k))) as Hv1
    by (rewrite Hb1; apply lookup_insert_eq).
  destruct (switchAccount_Some _ _ _ Hv1)
    as (Hp2 & Hc2 & Hl2 & Hb2 & (v2 & Hv2 & _) & Hpop2 & Hu2 & Hd2 & Ht2 & Ha2 & Hf2).
  set (a2 := switchAccount (steamName k) a1) in *.
  set (a3 := if bool_decide (steamName k ∈ profiles a2) then a2
             else set_profiles (profiles a2 ++ [steamName k]) a2).
  assert (profiles a3 = (if bool_decide (steamName k ∈ profiles a)
                         then profiles a else profiles a ++ [steamName k]) ∧
          currentName a3 = steamName k ∧ browsers a3 = browsers a2 ∧
          popupsByProfile a3 = popupsByProfile a2 ∧ lastUrls a3 = lastUrls a2 ∧
          dirs a3 = dirs a2 ∧ trace a3 = trace a2 ∧ appData a3 = appData a2)
    as (Hp3 & Hc3 & Hb3 & Hpop3 & Hu3 & Hd3 & Ht3 & Ha3).
  { subst a3. rewrite Hp2, Hp1. case_bool_decide; app_simpl; by rewrite ?Hp2, ?Hp1. }
  set (a4 := saveConfig (set_lastActive (steamName k) a3)).
  assert (browsers a4 !! steamName k = Some v2) as Hv4 by (subst a4; app_simpl; by rewrite Hb3).
  rewrite Hv4. cbn [mbind option_bind].
  assert (currentName a4 = steamName k) as Hc4 by done.
  assert (∃ a5, (if is_blank_url (view_url v2)
                 then navigateCurrent (restore_url a4 (steamName k)) a4 else Some a4) = Some a5 ∧
     profiles a5 = profiles a4 ∧ currentName a5 = currentName a4 ∧
     lastActive a5 = lastActive a4 ∧
     dom (browsers a5) = dom (browsers a4) ∧
     popupsByProfile a5 = popupsByProfile a4 ∧ lastUrls a5 = lastUrls a4 ∧
     dirs a5 = dirs a4 ∧ trace a5 = trace a4 ∧ appData a5 = appData a4 ∧
     config_file a5 = config_file a4 ∧ geometry a5 = geometry a4 ∧
     config_of a5 = config_of a4)
    as (a5 & -> & Hp5 & Hc5 & Hl5 & Hb5 & Hpop5 & Hu5 & Hd5 & Ht5 & Ha5 & Hf5 & Hg5 & Hcfg5).
  { destruct (is_blank_url (view_url v2)).
    - apply (navigateCurrent_spec _ a4 v2); rewrite Hc4; [apply steamName_nonempty|done].
    - eexists. split; [done|]. repeat split. }
  eexists. split; [done|]. split; [done|]. app_simpl.
  rewrite Hp5, Hc5, Hl5, Hb5, Hpop5, Hu5, Hd5, Ht5, Ha5, Hf5.
  subst a4. app_simpl.
  rewrite Hp3, Hc3, Hb3, Hpop3, Hu3, Hd3, Ht3, Ha3, Hb2, Hpop2, Hu2, Hd2, Ht2, Ha2,
    Hb1, Hpop1, Hu1, Hd1, Ht1, Ha1.
  rewrite dom_insert_L.
  repeat split; try done.
  unfold saveConfig_file. f_equal. f_equal; [|done].
  change (config_of (emit (EmitProfileAdded (steamName k)) a5)) with (config_of a5).
  by rewrite Hcfg5.
Qed.

Lemma deleteProfile_absent name answer rm a :
  browsers a !! name = None → deleteProfile name answer rm a = a.
Proof. unfold deleteProfile. by intros ->. Qed.

Lemma deleteProfile_declined name rm a v :
  browsers a !! name = Some v →
  deleteProfile name false rm a = emit (AskDelete name) a.
Proof. unfold deleteProfile. by intros ->. Qed.

(** The state of [deleteProfile] just before its closing [switchAccount]. *)
Lemma deleteProfile_confirmed name rm a v :
  browsers a !! name = Some v →
  ∃ m,
    deleteProfile name true rm a
      = (if bool_decide (lastActive m = "") then m else switchAccount (lastActive m) m) ∧
    browsers m = delete name (browsers a) ∧
    popupsByProfile m = delete name (popupsByProfile a) ∧
    profiles m = (if bool_decide (name ∈ profiles a)
                  then remove_first name (profiles a) else profiles a) ∧
    lastUrls m = delete name (lastUrls a) ∧
    lastActive m = match profiles m with p :: _ => p | [] => "" end ∧
    currentName m = currentName a ∧
    appData m = appData a ∧
    dirs m = match rm with
             | None => ({[profileDir_path a name]} ∪ dirs a) ∖ {[profileDir_path a name]}
             | Some _ => {[profileDir_path a name]} ∪ dirs a
             end ∧
    trace m = trace a ++ [AskDelete name; DeleteLater (ref_of v)]
                ++ (CloseWindow ∘ win_id <$> default [] (popupsByProfile a !! name))
                ++ [Rmtree (profileDir_path a name) rm]
                ++ match rm with
                   | None => []
                   | Some e => [Warn (RemoveDirFailed e); StatusRemoveFailed e]
                   end ∧
    config_file m = saveConfig_file (config_of m) (geometry m).
Proof.
  intros Hv. unfold deleteProfile. rewrite Hv. cbn [negb].
  eexists. split; [reflexivity|].
  app_simpl.
  assert (∀ D : gset string, bool_decide (profileDir_path a name ∈ {[profileDir_path a name]} ∪ D) = true) as Hin.
  { intros D. apply bool_decide_eq_true_2, elem_of_union_l, elem_of_singleton_2. done. }
  destruct (popupsByProfile a !! name) as [wins|] eqn:Hw; app_simpl;
    rewrite Hin; destruct rm as [e|]; app_simpl;
    case_bool_decide; app_simpl;
    rewrite <- ?app_assoc; cbn [app default from_option id];
    repeat split; try done.
  all: try (symmetry; by apply delete_id).
Qed.

Lemma same_registry_refl a : same_registry a a.
Proof. done. Qed.

Lemma same_registry_trans a b c :
  same_registry a b → same_registry b c → same_registry a c.
Proof. unfold same_registry. intros (?&?&?&?) (?&?&?&?). repeat split; congruence. Qed.

Lemma perform_same v a act : same_registry a (perform v a act).
Proof. by destruct act. Qed.

Lemma foldl_perform_same v acts a : same_registry a (foldl (perform v) a acts).
Proof.
  revert a. induction acts as [|act acts IH]; intros a; [done|].
  cbn [foldl]. eapply same_registry_trans; [apply perform_same|apply IH].
Qed.

Lemma on_view_same name f a : same_registry a (on_view name f a).
Proof.
  unfold on_view. destruct (browsers a !! name) as [v|] eqn:Hv; [|done].
  destruct (f v) as [v' acts].
  eapply same_registry_trans; [|apply foldl_perform_same].
  repeat split. app_simpl. rewrite dom_insert_L.
  apply elem_of_dom_2 in Hv. set_solver.
Qed.

Lemma deliver_same k p now a : same_registry a (deliver k p now a).
Proof.
  unfold deliver. destruct (pending a !! k) as [pd|]; [|done].
  set (a1 := set_pending _ a).
  assert (same_registry a a1) as H1 by done.
  destruct (browsers a1 !! (target pd).1) as [v|]; [|done].
  case_bool_decide; [|done].
  eapply same_registry_trans; [exact H1|apply on_view_same].
Qed.

Lemma _onUrlChanged_same name u a : same_registry a (_onUrlChanged name u a).
Proof.
  unfold _onUrlChanged. destruct (browsers a !! name) as [v|] eqn:Hv; [|done].
  assert (dom (<[name:=set_view_url u v]> (browsers a)) = dom (browsers a)) as Hd.
  { rewrite dom_insert_L. apply elem_of_dom_2 in Hv. set_solver. }
  destruct (negb (bool_decide (currentName _ = "")) && _);
    destruct (negb (bool_decide (profile_name v = ""))); by repeat split.
Qed.

Lemma toggleAccountsPanel_same a : same_registry a (toggleAccountsPanel a).
Proof. done. Qed.

Lemma onSplitterMoved_same sizes a : same_registry a (_onSplitterMoved sizes a).
Proof.
  unfold _onSplitterMoved. destruct sizes as [|? [|? ?]]; try done.
  by destruct (accountsVisible a).
Qed.

Lemma createWindow_spec name a :
  let a' := createWindow name a in
  profiles a' = profiles a ∧ currentName a' = currentName a ∧
  browsers a' = browsers a ∧
  popupsByProfile a' =
    <[name := default [] (popupsByProfile a !! name)
              ++ [{| win_id := S (next_id a);
                     win_visible := bool_decide (currentName a = name) |}]]>
      (popupsByProfile a).
Proof. done. Qed.

Lemma remove_window_subset id arr w : w ∈ remove_window id arr → w ∈ arr.
Proof.
  induction arr as [|x arr IH]; [done|]. cbn [remove_window].
  case_bool_decide.
  - intros. by right.
  - intros [->|?]%elem_of_cons; [left|right; auto].
Qed.

Lemma unregisterPopup_spec name id a :
  let a' := unregisterPopup name id a in
  profiles a' = profiles a ∧ currentName a' = currentName a ∧
  browsers a' = browsers a ∧
  ∀ n wins w, popupsByProfile a' !! n = Some wins → w ∈ wins →
     ∃ wins0, popupsByProfile a !! n = Some wins0 ∧ w ∈ wins0.
Proof.
  unfold unregisterPopup.
  destruct (popupsByProfile a !! name) as [arr|] eqn:Harr; [|by eauto 10].
  destruct arr as [|x arr]; [by eauto 10|].
  destruct (remove_window id (x :: arr)) as [|y arr'] eqn:Hrm; app_simpl.
  - repeat split; try done. intros n wins w.
    destruct (decide (n = name)) as [->|]; [by rewrite lookup_delete_eq|].
    rewrite lookup_delete_ne by done. eauto.
  - repeat split; try done. intros n wins w.
    destruct (decide (n = name)) as [->|].
    + rewrite lookup_insert_eq. intros [= <-] Hw. eexists. split; [done|].
      apply (remove_window_subset id). by rewrite Hrm.
    + rewrite lookup_insert_ne by done. eauto.
Qed.

Lemma remove_first_subset x y l : y ∈ remove_first x l → y ∈ l.
Proof.
  induction l as [|z l IH]; [done|]. cbn [remove_first]. case_bool_decide.
  - intros. by right.
  - intros [->|?]%elem_of_cons; [left|right; auto].
Qed.

Lemma remove_first_NoDup x l : NoDup l → NoDup (remove_first x l).
Proof.
  induction 1 as [|z l Hz Hl IH]; [constructor|]. cbn [remove_first].
  case_bool_decide; [done|]. constructor; [|done].
  intros ?%remove_first_subset. done.
Qed.

Lemma remove_first_gone x l : NoDup l → x ∉ remove_first x l.
Proof.
  induction 1 as [|z l Hz Hl IH]; [by intros ?%elem_of_nil|]. cbn [remove_first].
  case_bool_decide as Heq; [by subst|].
  intros [->|?]%elem_of_cons; [done|]. by apply IH.
Qed.

Lemma foldl_createProfile l a :
  let a' := foldl (λ a name, createProfile name false a) a l in
  profiles a' = profiles a ∧ currentName a' = currentName a ∧
  lastActive a' = lastActive a ∧
  popupsByProfile a' = popupsByProfile a ∧
  lastUrls a' = lastUrls a ∧
  dom (browsers a') = list_to_set l ∪ dom (browsers a).
Proof.
  revert a. induction l as [|name l IH]; intros a; cbn [foldl].
  { repeat split. set_solver. }
  destruct (IH (createProfile name false a)) as (-> & -> & -> & -> & -> & ->).
  destruct (createProfile_false name a) as (-> & -> & -> & -> & -> & -> & _).
  repeat split. rewrite dom_insert_L. set_solver.
Qed.

Lemma same_registry_inv c a a' :
  same_registry a a' → registry_inv c a → registry_inv c a'.
Proof.
  intros (Hp & Hc & Hpop & Hd) (H1 & H2 & H3). unfold registry_inv, popups_follow_focus.
  rewrite Hp, Hc, Hpop, Hd. done.
Qed.

Lemma switchAccount_inv c acc a : registry_inv c a → registry_inv c (switchAccount acc a).
Proof.
  intros (H1 & H2 & H3). destruct (browsers a !! acc) as [v|] eqn:Hv.
  - destruct (switchAccount_Some _ _ _ Hv) as (Hp & Hc & _ & Hd & _ & Hpop & _).
    split; [by eapply shown_for_follow|]. by rewrite Hp, Hd.
  - by rewrite switchAccount_None.
Qed.

Lemma boot_inv c f data geo ds : registry_inv c (boot c f data geo ds).
Proof.
  unfold boot. set (a0 := mkApp _ _ _ _ _ _ _ _ _ _ _ _ _ _ _ _).
  destruct (foldl_createProfile (profiles a0) a0) as (Hp & Hc & _ & Hpop & _ & Hd).
  set (a1 := foldl _ a0 _) in *.
  subst a0. cbn [profiles popupsByProfile browsers currentName] in Hp, Hc, Hpop, Hd.
  assert (registry_inv c a1) as Hinv.
  { split; [|split].
    - intros name wins w. by rewrite Hpop, lookup_empty.
    - by rewrite Hp.
    - intros Hg n. rewrite Hd. intros [Hn|Hn]%elem_of_union.
      + apply elem_of_list_to_set in Hn. by eapply (proj1 (Forall_forall _ _)) in Hg.
      + by rewrite dom_empty_L in Hn. }
  case_bool_decide; [by apply switchAccount_inv|done].
Qed.

Lemma handle_inv c ev a a' :
  handle ev a = Some a' → registry_inv c a → registry_inv c a'.
Proof.
  destruct ev; cbn [handle]; try (intros [= <-]).
  - destruct (addAccount_spec a) as (k & a1 & Hk & -> & Hp & Hc & _ & Hd & Hpop & _).
    intros [= <-] (H1 & H2 & H3). split; [by eapply shown_for_follow|]. split.
    + intros Hnd. rewrite Hp. case_bool_decide as Hin; [auto|].
      apply NoDup_app. split; [auto|]. split; [|apply NoDup_singleton].
      intros x Hx ->%list_elem_of_singleton. done.
    + intros Hg n. rewrite Hd. intros [->%elem_of_singleton|Hn]%elem_of_union;
        [by eexists|auto].
  - apply switchAccount_inv.
  - intros Hinv. destruct (browsers a !! name) as [v|] eqn:Hv.
    2:{ by rewrite deleteProfile_absent. }
    destruct answer.
    2:{ rewrite (deleteProfile_declined _ _ _ _ Hv).
        eapply same_registry_inv; [|exact Hinv]. done. }
    destruct (deleteProfile_confirmed name rm a v Hv)
      as (m & -> & Hb & Hpop & Hp & _ & _ & Hc & _).
    assert (registry_inv c m) as Hm.
    { destruct Hinv as (H1 & H2 & H3). split; [|split].
      - intros n wins w. rewrite Hpop, Hc. intros Hl%lookup_delete_Some. naive_solver.
      - intros Hnd. rewrite Hp. case_bool_decide; [apply remove_first_NoDup|]; auto.
      - intros Hg n. rewrite Hb, dom_delete_L. intros [? _]%elem_of_difference. auto. }
    destruct (bool_decide (lastActive m = "")); [done|by apply switchAccount_inv].
  - intros (H1 & H2 & H3).
    destruct (createWindow_spec name a) as (Hp & Hc & Hb & Hpop).
    split; [|by rewrite Hp, Hb].
    intros n wins w. rewrite Hpop, Hc.
    destruct (decide (n = name)) as [->|].
    + rewrite lookup_insert_eq. intros [= <-] [Hw|Hw]%elem_of_app.
      * destruct (popupsByProfile a !! name) as [wins0|] eqn:Hl; [by eapply H1|].
        by apply elem_of_nil in Hw.
      * apply list_elem_of_singleton in Hw as ->. cbn.
        apply bool_decide_ext. naive_solver.
    + rewrite lookup_insert_ne by done. apply H1.
  - intros (H1 & H2 & H3).
    destruct (unregisterPopup_spec name id a) as (Hp & Hc & Hb & Hpop).
    split; [|by rewrite Hp, Hb].
    intros n wins w Hl Hw. rewrite Hc.
    destruct (Hpop n wins w Hl Hw) as (wins0 & ? & ?). by eapply H1.
  - apply same_registry_inv, _onUrlChanged_same.
  - apply same_registry_inv, on_view_same.
  - apply same_registry_inv, on_view_same.
  - apply same_registry_inv, on_view_same.
  - apply same_registry_inv, deliver_same.
  - apply same_registry_inv, toggleAccountsPanel_same.
  - apply same_registry_inv, onSplitterMoved_same.
Qed.

Lemma reachable_inv c a : reachable c a → registry_inv c a.
Proof.
  induction 1 as [f data geo ds|a ev a' _ IH Hstep].
  - apply boot_inv.
  - by eapply handle_inv.
Qed.

Lemma run_events_reachable c evs a a' :
  reachable c a → run_events evs a = Some a' → reachable c a'.
Proof.
  revert a. induction evs as [|ev evs IH]; intros a Ha; cbn [run_events].
  - by intros [= <-].
  - destruct (handle ev a) as [a1|] eqn:Hstep; [|done]. cbn.
    apply IH. by eapply reach_step.
Qed.

Lemma profileDir_path_inj a n1 n2 :
  profileDir_path a n1 = profileDir_path a n2 → n1 = n2.
Proof.
  unfold profileDir_path. intros H.
  apply (inj (String.append (appData a))) in H.
  by apply (inj (String.append "/profiles/")) in H.
Qed.



Lemma switchAccount_keeps acc a :
  let a' := switchAccount acc a in
  profiles a' = profiles a ∧ lastUrls a' = lastUrls a ∧ dirs a' = dirs a ∧
  trace a' = trace a ∧ dom (browsers a') = dom (browsers a) ∧
  (∀ n, popupsByProfile a !! n = None → popupsByProfile a' !! n = None) ∧
  (config_file a = saveConfig_file (config_of a) (geometry a) →
   config_file a' = saveConfig_file (config_of a') (geometry a')).
Proof.
  destruct (browsers a !! acc) as [v|] eqn:Hv.
  - destruct (switchAccount_Some _ _ _ Hv)
      as (Hp & _ & _ & Hd & _ & Hpop & Hu & Hdirs & Ht & _ & Hf).
    repeat split; try done.
    intros n Hn. by rewrite Hpop, shown_for_lookup, Hn.
  - by rewrite switchAccount_None.
Qed.




(** C5.  In every reachable state a registered popup is visible exactly
    when the name it is registered under is the current name.  Switching to
    a live session makes it current, keeps every registration, and leaves
    visible exactly the popups of that session; a window created for a
    session is registered last under its name and starts visible exactly
    when that session is the current one. *)
Theorem popup_visible_iff_owner_focused (c : Config) (a : App) :
  reachable c a →
  (∀ name wins w, popupsByProfile a !! name = Some wins → w ∈ wins →
     (win_visible w = true ↔ name = currentName a)) ∧
  (∀ acc, is_Some (browsers a !! acc) →
     let a' := switchAccount acc a in
     currentName a' = acc ∧
     (∀ name, fmap win_id <$> (popupsByProfile a' !! name)
              = fmap win_id <$> (popupsByProfile a !! name)) ∧
     (∀ name wins w, popupsByProfile a' !! name = Some wins → w ∈ wins →
        (win_visible w = true ↔ name = acc))) ∧
  (∀ name,
     let a' := createWindow name a in
     ∃ w, popupsByProfile a' !! name
            = Some (default [] (popupsByProfile a !! name) ++ [w]) ∧
          (win_visible w = true ↔ name = currentName a) ∧
          currentName a' = currentName a).
Proof.
  intros Hreach. destruct (reachable_inv _ _ Hreach) as (Hfollow & _).
  split; [|split].
  - intros name wins w Hl Hw. rewrite (Hfollow name wins w Hl Hw).
    apply bool_decide_eq_true.
  - intros acc [v Hv] a'.
    destruct (switchAccount_Some _ _ _ Hv) as (_ & Hc & _ & _ & _ & Hpop & _).
    fold a' in Hc, Hpop. split; [done|]. split.
    + intros name. rewrite Hpop. apply shown_for_ids.
    + intros name wins w Hl Hw.
      rewrite (shown_for_follow a' acc _ Hpop Hc name wins w Hl Hw), Hc.
      apply bool_decide_eq_true.
  - intros name a'. destruct (createWindow_spec name a) as (_ & Hc & _ & Hpop).
    fold a' in Hc, Hpop. eexists. split; [by rewrite Hpop, lookup_insert_eq|].
    split; [|done]. cbn [win_visible]. rewrite bool_decide_eq_true. naive_solver.
Qed.

Lemma popup_visible_iff_owner_focused_witness :
  let a0 := boot default_config NoFile "/data" "" ∅ in
  ∃ a, run_events [EvAddAccount; EvCreateWindow "Steam 1"; EvAddAccount;
                   EvCreateWindow "Steam 2"; EvSwitchAccount "Steam 1";
                   EvCreateWindow "Steam 2"] a0 = Some a ∧
  (λ kv : string * list PopupWindow, (kv.1, win_visible <$> kv.2))
    <$> map_to_list (popupsByProfile a)
    = [("Steam 1", [true]); ("Steam 2", [false; false])] ∧
  (∀ name wins w, popupsByProfile a !! name = Some wins → w ∈ wins →
     (win_visible w = true ↔ name = currentName a)) ∧
  (∀ acc, is_Some (browsers a !! acc) →
     let a' := switchAccount acc a in
     currentName a' = acc ∧
     (∀ name, fmap win_id <$> (popupsByProfile a' !! name)
              = fmap win_id <$> (popupsByProfile a !! name)) ∧
     (∀ name wins w, popupsByProfile a' !! name = Some wins → w ∈ wins →
        (win_visible w = true ↔ name = acc))) ∧
  (∀ name,
     let a' := createWindow name a in
     ∃ w, popupsByProfile a' !! name
            = Some (default [] (popupsByProfile a !! name) ++ [w]) ∧
          (win_visible w = true ↔ name = currentName a) ∧
          currentName a' = currentName a).
Proof.
  intros a0. eexists. split; [vm_compute; reflexivity|].
  split; [vm_compute; reflexivity|].
  apply (popup_visible_iff_owner_focused default_config).
  eapply (run_events_reachable default_config
            [EvAddAccount; EvCreateWindow "Steam 1"; EvAddAccount;
             EvCreateWindow "Steam 2"; EvSwitchAccount "Steam 1";
             EvCreateWindow "Steam 2"]).
  - apply (reach_boot default_config NoFile "/data" "" ∅).
  - vm_compute; reflexivity.
Defined.

(** ** The health monitor *)

Lemma existsb_asks_reload_logged level src line msg :
  existsb asks_reload
    (match level with
     | ErrorMessageLevel => [ActWarn (JsError src line msg)]
     | _ => []
     end) = false.
Proof. by destruct level. Qed.

Lemma fire_stamps v f :
  let d := detector_of (signal f) in
  let v' := (fire v f).1 in
  if existsb asks_reload (fire v f).2
  then cooled d (stamp d v) (at_ms f) = true ∧ stamp d v' = at_ms f ∧
       ∀ d', d' ≠ d → stamp d' v' = stamp d' v
  else ∀ d', stamp d' v' = stamp d' v.
Proof.
  destruct f as [now cur [level msg line src| |html|res]]; unfold fire; cbn -[existsb].
  - unfold javaScriptConsoleMessage.
    destruct (existsb (λ s, Py.contains s msg) FATAL_MARKERS);
      [|cbn -[existsb]; by rewrite existsb_asks_reload_logged].
    destruct (negb (bool_decide (cur = profile_name v)));
      [cbn -[existsb]; by rewrite existsb_asks_reload_logged|].
    destruct (5000 <? now - last_fix_ms v) eqn:Hc; cbn -[existsb];
      [|by rewrite existsb_asks_reload_logged].
    rewrite existsb_app, existsb_asks_reload_logged. cbn.
    split; [done|]. split; [done|]. by intros [].
  - unfold _onRenderCrash.
    destruct (negb (bool_decide (cur = profile_name v))); [done|].
    destruct (now - lastRenderReloadMs v <? 5000) eqn:Hc; [done|].
    cbn [fst snd existsb asks_reload orb detector_of signal at_ms cooled stamp lastRenderReloadMs set_lastRenderReloadMs].
    split; [done|]. split; [done|]. by intros [].
  - unfold after_html.
    destruct (negb (bool_decide (Py.strip (default "" html) = "")) && _); [by intros []|].
    destruct (blank_fix_tries v <? 3); [|done]. cbn [andb].
    destruct (5000 <? now - last_blank_fix_ms v) eqn:Hc; cbn; [|done].
    split; [done|]. split; [done|]. by intros [].
  - unfold _maybeReloadOnBlank.
    destruct (match res with JObj m => _ | _ => false end); [|done]. cbn [andb].
    destruct (5000 <? now - last_blank_fix_ms v) eqn:Hc; cbn; [|done].
    destruct (blank_fix_tries v <? 3); cbn; [|done].
    split; [done|]. split; [done|]. by intros [].
Qed.

Lemma times_of_cons_eq d t log : times_of d ((d, t) :: log) = t :: times_of d log.
Proof. unfold times_of. by rewrite filter_cons_True. Qed.

Lemma times_of_cons_ne d d' t log : d' ≠ d → times_of d ((d', t) :: log) = times_of d log.
Proof. intros. unfold times_of. by rewrite filter_cons_False. Qed.

Lemma reload_log_spaced d fs v : spaced d (stamp d v) (times_of d (reload_log v fs)).
Proof.
  revert v. induction fs as [|f fs IH]; intros v; [done|].
  cbn [reload_log]. pose proof (fire_stamps v f) as H.
  destruct (fire v f) as [v' acts]. cbn [fst snd] in H.
  destruct (existsb asks_reload acts).
  - destruct H as (Hc & Hs & Ho). cbn [app].
    destruct (decide (detector_of (signal f) = d)) as [<-|Hne].
    + rewrite times_of_cons_eq. split; [done|]. rewrite <- Hs. apply IH.
    + rewrite times_of_cons_ne by done. rewrite <- (Ho d) by done. apply IH.
  - cbn [app]. rewrite <- (H d). apply IH.
Qed.

Lemma spaced_lookup d last ts i t1 t2 :
  spaced d last ts → ts !! i = Some t1 → ts !! S i = Some t2 →
  cooled d t1 t2 = true.
Proof.
  revert last i. induction ts as [|t ts IH]; intros last i; [done|].
  intros [_ Hs]. destruct i as [|i]; cbn.
  - intros [= ->]. destruct ts as [|t' ts]; [done|]. intros [= ->]. by destruct Hs.
  - by apply (IH t).
Qed.

(** C1, as amended.  Each detector (console, blank render, crash) keeps its
    own timestamp: in every run of signals on a view, the reloads one
    detector requests are each more than 5000 ms after the previous one of
    the same detector (at least 5000 ms for the crash detector), starting
    from the timestamp the view had. *)
Theorem reload_cooldown_per_detector (v : View) (fs : list Firing) (d : Detector) :
  let ts := times_of d (reload_log v fs) in
  spaced d (stamp d v) ts ∧
  ∀ i t1 t2, ts !! i = Some t1 → ts !! S i = Some t2 →
    match d with
    | Crash => 5000 ≤ t2 - t1
    | _ => 5000 < t2 - t1
    end.
Proof.
  intros ts. pose proof (reload_log_spaced d fs v) as Hs. split; [done|].
  intros i t1 t2 H1 H2. pose proof (spaced_lookup _ _ _ _ _ _ Hs H1 H2) as Hc.
  destruct d; cbn in Hc; try (apply Z.ltb_lt in Hc; lia).
  apply negb_true_iff, Z.ltb_ge in Hc. lia.
Qed.

(** C1, as stated, fails: on a focused view a console failure at 10000 ms, a
    renderer crash at 10001 ms and a blank page text at 10002 ms each
    request a reload. *)
Lemma shared_cooldown_counterexample :
  let v := set_view_url HOME (new_view 0 "Steam 1") in
  let fs := [ {| at_ms := 10000; focus := "Steam 1";
                 signal := SigConsole ErrorMessageLevel "ChunkLoadError: chunk 7 failed" 1 "main.js" |};
              {| at_ms := 10001; focus := "Steam 1"; signal := SigCrash |};
              {| at_ms := 10002; focus := "Steam 1"; signal := SigHtml (Some "") |} ] in
  reload_log v fs = [(Console, 10000); (Crash, 10001); (Blank, 10002)] ∧
  ¬ shared_cooldown (reload_log v fs).
Proof.
  intros v fs. assert (reload_log v fs = [(Console, 10000); (Crash, 10001); (Blank, 10002)]) as E
    by (vm_compute; reflexivity).
  split; [exact E|]. rewrite E. intros H.
  specialize (H 0%nat Console 10000 Crash 10001 eq_refl eq_refl). lia.
Qed.

(** The blank detector on pages that stay blank. *)
Lemma fire_blank v f :
  judged_blank (signal f) = true →
  (fire v f = (v, [])) ∨
  (blank_fix_tries v < 3 ∧
   fire v f = (set_blank_fix_tries (blank_fix_tries v + 1)
                 (set_last_blank_fix_ms (at_ms f) v), [ActReload])).
Proof.
  destruct f as [now cur [level msg line src| |html|res]]; cbn [signal judged_blank];
    try done; unfold fire; cbn [signal at_ms focus].
  - unfold html_blank, after_html. intros ->%negb_true_iff.
    destruct (Z.ltb_spec (blank_fix_tries v) 3); [|by left]. cbn [andb].
    destruct (5000 <? now - last_blank_fix_ms v); [right|left]; done.
  - unfold js_blank, _maybeReloadOnBlank. intros ->. cbn [andb].
    destruct (5000 <? now - last_blank_fix_ms v); [|by left]. cbn [andb].
    destruct (Z.ltb_spec (blank_fix_tries v) 3); [right|left]; done.
Qed.

Lemma blank_budget fs v :
  Forall (λ f, judged_blank (signal f) = true) fs →
  0 ≤ blank_fix_tries v →
  Z.of_nat (length (reload_log v fs)) ≤ Z.max 0 (3 - blank_fix_tries v) ∧
  blank_fix_tries (fire_all v fs) = blank_fix_tries v + Z.of_nat (length (reload_log v fs)).
Proof.
  revert v. induction fs as [|f fs IH]; intros v Hall Hge.
  { cbn. lia. }
  apply Forall_cons in Hall as [Hf Hall]. cbn [reload_log fire_all].
  destruct (fire_blank v f Hf) as [->|[Hlt ->]]; cbn [fst existsb app].
  - by apply IH.
  - cbn [asks_reload orb app length].
    destruct (IH (set_blank_fix_tries (blank_fix_tries v + 1)
                    (set_last_blank_fix_ms (at_ms f) v)) Hall) as [H1 H2];
      cbn [blank_fix_tries set_blank_fix_tries] in *; lia.
Qed.

(** C4.  While the page is judged blank by either check, at most three
    reloads are requested from a counter at zero, and the text check resets
    the counter when it finds the page non-blank.  The script check does
    not: it leaves the view untouched on a non-blank result.  On the sample
    run, three blank results bring three reloads and a fourth none; the
    script check then finds the page non-blank and the counter stays at 3,
    so a blank result after it gets no reload. *)
Theorem blank_counter_kept_by_script_check :
  (∀ v fs, Forall (λ f, judged_blank (signal f) = true) fs →
           blank_fix_tries v = 0 → (length (reload_log v fs) ≤ 3)%nat) ∧
  (∀ v html now, html_blank html = false →
                 blank_fix_tries (after_html v html now).1 = 0) ∧
  (∀ v res now, js_blank res = false → _maybeReloadOnBlank v res now = (v, [])) ∧
  let v0 := set_view_url HOME (new_view 0 "Steam 1") in
  let blank t := {| at_ms := t; focus := "Steam 1"; signal := SigHtml (Some "") |} in
  let fs := [blank 10000; blank 16000; blank 22000; blank 28000] in
  let v3 := fire_all v0 fs in
  let fine := {| at_ms := 34000; focus := "Steam 1";
                 signal := SigJs (blank_probe (Body 500 12 1)) |} in
  let again := {| at_ms := 40000; focus := "Steam 1";
                  signal := SigJs (blank_probe NoBody) |} in
  reload_log v0 fs = [(Blank, 10000); (Blank, 16000); (Blank, 22000)] ∧
  blank_fix_tries v3 = 3 ∧
  judged_blank (signal fine) = false ∧
  blank_fix_tries (fire v3 fine).1 = 3 ∧
  judged_blank (signal again) = true ∧
  reload_log v3 [fine; again] = [].
Proof.
  split; [|split; [|split]].
  - intros v fs Hall H0. destruct (blank_budget fs v Hall) as [H _]; lia.
  - intros v html now. unfold html_blank, after_html. by intros ->%negb_false_iff.
  - intros v res now. unfold js_blank, _maybeReloadOnBlank. by intros ->.
  - intros. repeat split; vm_compute; reflexivity.
Qed.

(** C2.  A reload is issued on a session that is no longer the current one:
    the 150 ms timers of the crash and console handlers, the 400 ms timer
    of the blank inspection with the result callback of its script, and the
    result callback of the page text all act without looking at the focus,
    so a switch between detection and delivery does not stop them. *)
Theorem reload_reaches_defocused_session :
  let a0 := boot default_config NoFile "/data" "" ∅ in
  (* the delayed reload of the crash handler *)
  (∃ a, run_events (two_sessions ++
          [ EvRenderCrash "Steam 1" 10000;
            EvSwitchAccount "Steam 2";
            EvDeliver 2 NoResult 10150 ]) a0 = Some a ∧
        currentName a = "Steam 2" ∧
        last (trace a) = Some (Reload ("Steam 1", 0%nat) "Steam 2")) ∧
  (* the delayed reload of the console handler *)
  (∃ a, run_events (two_sessions ++
          [ EvConsoleMessage "Steam 1" ErrorMessageLevel "ChunkLoadError" 1 "main.js" 10000;
            EvSwitchAccount "Steam 2";
            EvDeliver 2 NoResult 10150 ]) a0 = Some a ∧
        currentName a = "Steam 2" ∧
        last (trace a) = Some (Reload ("Steam 1", 0%nat) "Steam 2")) ∧
  (* the delayed blank inspection and the result of its script *)
  (∃ a, run_events (two_sessions ++
          [ EvLoadProgress "Steam 1" 100;
            EvDeliver 2 NoResult 10800;
            EvSwitchAccount "Steam 2";
            EvDeliver 3 NoResult 11200;
            EvDeliver 3 (JsResult (blank_probe NoBody)) 11250 ]) a0 = Some a ∧
        currentName a = "Steam 2" ∧
        last (trace a) = Some (Reload ("Steam 1", 0%nat) "Steam 2")) ∧
  (* the result callback of the page text *)
  (∃ a, run_events (two_sessions ++
          [ EvLoadProgress "Steam 1" 100;
            EvDeliver 2 NoResult 10800;
            EvSwitchAccount "Steam 2";
            EvDeliver 2 (HtmlResult (Some "")) 10900 ]) a0 = Some a ∧
        currentName a = "Steam 2" ∧
        last (trace a) = Some (Reload ("Steam 1", 0%nat) "Steam 2")) ∧
  (* no callback of the recovery path looks at the focus *)
  (∀ cur v p now, run_callback CbReloadPage p now cur v = (v, [ActReload])) ∧
  (∀ cur v p now, run_callback CbReloadView p now cur v = (v, [ActReload])) ∧
  (∀ cur cur' v p now, run_callback CbPostBlankJS p now cur v
                       = run_callback CbPostBlankJS p now cur' v) ∧
  (∀ cur cur' v p now, run_callback CbAfterHtml p now cur v
                       = run_callback CbAfterHtml p now cur' v) ∧
  (∀ cur cur' v p now, run_callback CbMaybeReloadOnBlank p now cur v
                       = run_callback CbMaybeReloadOnBlank p now cur' v).
Proof.
  intros a0. repeat split; try (by intros; destruct p).
  all: eexists; split; [vm_compute; reflexivity|]; split; vm_compute; reflexivity.
Qed.

(** C3.  Starting with no profile (and no focus), adding a profile and
    deleting it leaves an empty registry while the current name is still
    the deleted one; the toolbar actions then raise [KeyError]. *)
Theorem focus_dangles_after_last_delete :
  let a0 := boot default_config NoFile "/data" "" ∅ in
  ∃ a, run_events [EvAddAccount; EvDeleteProfile "Steam 1" true None] a0 = Some a ∧
    currentName a0 = "" ∧
    browsers a = ∅ ∧
    profiles a = [] ∧
    currentName a = "Steam 1" ∧
    browsers a !! currentName a = None ∧
    callOnCurrent a = None ∧
    navigateCurrent HOME a = None.
Proof.
  intros a0. eexists. split; [vm_compute; reflexivity|].
  repeat split; vm_compute; reflexivity.
Qed.

(** * Further properties *)
(** ** More on strings, URLs and the parser *)

Lemma rstrip_idem s : Py.rstrip (Py.rstrip s) = Py.rstrip s.
Proof.
  induction s as [|c s IH]; [done|]. cbn [Py.rstrip].
  destruct (Py.rstrip s) as [|c' r] eqn:Hr.
  - destruct (Py.isspace c) eqn:Hc; [done|]. cbn [Py.rstrip]. by rewrite Hc.
  - cbn [Py.rstrip]. cbn [Py.rstrip] in IH. by rewrite IH.
Qed.

Lemma lstrip_head s :
  match Py.lstrip s with
  | "" => True
  | String c _ => Py.isspace c = false
  end.
Proof.
  induction s as [|c s IH]; [done|]. cbn [Py.lstrip].
  by destruct (Py.isspace c) eqn:Hc.
Qed.

Lemma lstrip_rstrip_head c s :
  Py.isspace c = false → Py.lstrip (Py.rstrip (String c s)) = Py.rstrip (String c s).
Proof.
  intros Hc. cbn [Py.rstrip]. destruct (Py.rstrip s); rewrite ?Hc; cbn [Py.lstrip];
    by rewrite Hc.
Qed.

Lemma strip_idem s : Py.strip (Py.strip s) = Py.strip s.
Proof.
  unfold Py.strip. pose proof (lstrip_head s) as H.
  destruct (Py.lstrip s) as [|c t]; [done|].
  by rewrite lstrip_rstrip_head, rstrip_idem.
Qed.

Lemma yields_fields_clean ln login pwd :
  yields ln (login, pwd) →
  login ≠ "" ∧ pwd ≠ "" ∧ trimmed login ∧ trimmed pwd ∧
  Py.contains ":" login = false.
Proof.
  inversion 1 as [a b Hs Ha Hh Hna Hnb]; subst. unfold trimmed.
  rewrite !strip_idem. split; [done|]. split; [done|]. split; [done|].
  split; [done|]. by apply contains_colon_strip.
Qed.

Lemma omap_length_le {A B} (f : A → option B) l : (length (omap f l) ≤ length l)%nat.
Proof.
  induction l as [|x l IH]; [done|]. cbn. destruct (f x); cbn; lia.
Qed.

Lemma parse_logpass_file_raises (fs : gmap string File) (path : string) :
  parse_logpass_file fs path = None ↔ fs !! path = Some Unreadable.
Proof.
  unfold parse_logpass_file. destruct (fs !! path) as [[raw|]|]; [|done|done].
  unfold parse_logpass_text. by rewrite (parse_logpass_loop_omap _ []).
Qed.

(** X1.  [parse_logpass_file] gives the empty list for a path that does not
    exist and raises for one that exists and cannot be read.  For a file
    that can be read it never raises; every pair it returns has a non-empty
    login and a non-empty password, both without white space at either end,
    and a login without a colon; there is at most one pair per line of the
    file. *)
Theorem parse_logpass_file_pairs_clean (fs : gmap string File) (path : string) :
  (fs !! path = None → parse_logpass_file fs path = Some []) ∧
  (parse_logpass_file fs path = None ↔ fs !! path = Some Unreadable) ∧
  (∀ raw, fs !! path = Some (Readable raw) →
     ∃ out, parse_logpass_file fs path = Some out ∧
       Forall (λ p : string * string,
                 p.1 ≠ "" ∧ p.2 ≠ "" ∧ trimmed p.1 ∧ trimmed p.2 ∧
                 Py.contains ":" p.1 = false) out ∧
       (length out ≤ length (Py.resplit_crlf raw))%nat).
Proof.
  split; [|split; [apply parse_logpass_file_raises|]].
  - unfold parse_logpass_file. by intros ->.
  - intros raw Hf. unfold parse_logpass_file. rewrite Hf.
    unfold parse_logpass_text. rewrite (parse_logpass_loop_omap _ []).
    eexists. split; [done|]. split.
    + apply Forall_forall. intros [login pwd] (ln & _ & Hp)%list_elem_of_omap.
      by apply pair_of_line_yields, yields_fields_clean in Hp.
    + apply omap_length_le.
Qed.

Lemma lower_app a b : Py.lower (a +:+ b) = Py.lower a +:+ Py.lower b.
Proof. induction a as [|c a IH]; [done|]. rewrite append_cons. cbn [Py.lower]. by rewrite IH. Qed.

Lemma endswith_iff s p : Py.endswith s p = true ↔ ∃ pre, s = pre +:+ p.
Proof.
  induction s as [|c s IH]; cbn [Py.endswith].
  - destruct (decide ("" = p)) as [<-|Hne]; split; try done.
    + by exists "".
    + intros [pre Hp]. destruct pre; [done|discriminate].
  - destruct (decide (String c s = p)) as [<-|Hne].
    + split; [by exists ""|done].
    + rewrite IH. split.
      * intros [pre ->]. by exists (String c pre).
      * intros [[|c' pre] Hp]; [done|]. rewrite append_cons in Hp.
        injection Hp as -> ->. by exists pre.
Qed.

Lemma isSteamUrl_iff u :
  isSteamUrl u = true ↔
  ∃ pre h, h ∈ STEAM_HOST_SUFFIXES ∧ Py.lower (url_host u) = pre +:+ h.
Proof.
  unfold isSteamUrl. rewrite existsb_exists. split.
  - intros (h & Hin & [pre Hp]%endswith_iff). exists pre, h.
    split; [by apply list_elem_of_In|done].
  - intros (pre & h & Hin & Hp). exists h. split; [by apply list_elem_of_In|].
    apply endswith_iff. by exists pre.
Qed.

Lemma urlIsLogin_isSteamUrl u : urlIsLogin u = true → isSteamUrl u = true.
Proof.
  unfold urlIsLogin. intros [_ [pre Hp]%endswith_iff]%andb_true_iff.
  apply isSteamUrl_iff. exists (Py.lower pre), "steamcommunity.com".
  split; [left|]. by rewrite Hp, lower_app.
Qed.

(** X2.  [isSteamUrl] holds exactly when the lower-cased host ends with one
    of the Steam host suffixes; every login address is a Steam address; and
    the walker's cursor moves on a navigation only when the address is a
    Steam address that is not the login page. *)
Theorem isSteamUrl_suffix_match :
  (∀ u, isSteamUrl u = true ↔
        ∃ pre h, h ∈ STEAM_HOST_SUFFIXES ∧ Py.lower (url_host u) = pre +:+ h) ∧
  (∀ u, urlIsLogin u = true → isSteamUrl u = true) ∧
  (∀ w url, Walker.index (Walker.onUrlChanged w url).1 ≠ Walker.index w →
            isSteamUrl url = true ∧ urlIsLogin url = false).
Proof.
  split; [apply isSteamUrl_iff|]. split; [apply urlIsLogin_isSteamUrl|].
  intros w url. unfold Walker.onUrlChanged.
  destruct (negb (Walker.active w) || _); [done|].
  destruct (isSteamUrl url) eqn:Hs; [|done].
  destruct (urlIsLogin url) eqn:Hl; done.
Qed.

Lemma prefix_nil s : String.prefix "" s = true.
Proof. by destruct s. Qed.

Lemma prefix_app p s : String.prefix p (p +:+ s) = true.
Proof.
  induction p as [|c p IH]; [apply prefix_nil|].
  rewrite append_cons. cbn [String.prefix]. by destruct (ascii_dec c c).
Qed.

Lemma append_length a b :
  String.length (a +:+ b) = (String.length a + String.length b)%nat.
Proof. induction a as [|c a IH]; [done|]. rewrite append_cons. cbn. by rewrite IH. Qed.

Lemma trust_hosts_no_proper_suffix h h2 :
  h ∈ TRUST_HOSTS → h2 ∈ TRUST_HOSTS → Py.endswith h2 h = true → h2 = h.
Proof.
  unfold TRUST_HOSTS. rewrite !elem_of_cons, !elem_of_nil.
  intros [->|[->|[->|[->|[]]]]] [->|[->|[->|[->|[]]]]]; vm_compute; congruence.
Qed.

(** X3.  A feature permission is granted exactly when the host is, letter
    for letter, one of the trusted hosts.  Every host that is granted is a
    Steam address, but not the other way round: a host that only ends with
    a trusted host is denied although [isSteamUrl] accepts it. *)
Theorem feature_permission_exact_host :
  (∀ host, _onFeaturePerm host = PermissionGrantedByUser ↔ host ∈ TRUST_HOSTS) ∧
  (∀ u, _onFeaturePerm (url_host u) = PermissionGrantedByUser → isSteamUrl u = true) ∧
  (∀ pre h text, h ∈ TRUST_HOSTS → pre ≠ "" →
     _onFeaturePerm (pre +:+ h) = PermissionDeniedByUser ∧
     isSteamUrl {| url_text := text; url_host := pre +:+ h |} = true).
Proof.
  assert (∀ h, h ∈ TRUST_HOSTS → h ∈ STEAM_HOST_SUFFIXES ∧ Py.lower h = h) as Hlow.
  { unfold TRUST_HOSTS. intros h. rewrite !elem_of_cons, !elem_of_nil.
    intros [->|[->|[->|[->|[]]]]]; (split; [|vm_compute; reflexivity]);
      unfold STEAM_HOST_SUFFIXES; rewrite !elem_of_cons; tauto. }
  split; [|split].
  - intros host. unfold _onFeaturePerm. case_bool_decide; split; done.
  - intros u. unfold _onFeaturePerm. case_bool_decide as Hin; [|done]. intros _.
    destruct (Hlow _ Hin) as [Hs Hl]. apply isSteamUrl_iff.
    exists "", (url_host u). by rewrite Hl.
  - intros pre h text Hin Hpre. split.
    + unfold _onFeaturePerm. case_bool_decide as Hin2; [|done]. exfalso.
      assert (pre +:+ h = h) as E.
      { apply (trust_hosts_no_proper_suffix h); [done..|].
        apply endswith_iff. by exists pre. }
      apply (f_equal String.length) in E. rewrite append_length in E.
      destruct pre; [done|]. cbn in E. lia.
    + destruct (Hlow _ Hin) as [Hs Hl]. apply isSteamUrl_iff.
      exists (Py.lower pre), h. cbn [url_host]. by rewrite lower_app, Hl.
Qed.

Lemma typed_url_scheme text : has_scheme (typed_url text).
Proof.
  unfold typed_url, has_scheme.
  destruct (Py.startswith (Py.strip text) "http://") eqn:H1; [by left|].
  destruct (Py.startswith (Py.strip text) "https://") eqn:H2; [by right; left|].
  destruct (Py.startswith (Py.strip text) "chrome://") eqn:H3; [by right; right|].
  cbn [orb negb]. right. left. apply prefix_app.
Qed.

(** X4.  What [navigateToUrl] loads always begins with [http://],
    [https://] or [chrome://]: it is the trimmed text of the address bar
    when that has such a scheme, and exactly [https://] followed by the
    trimmed text otherwise.  With no focused name nothing happens; with a
    focused name that is not registered the call raises; otherwise the
    focused view is sent to that address, every other view is left as it
    is and the focus stays. *)
Theorem navigateToUrl_adds_scheme (text : string) (a : App) :
  has_scheme (typed_url text) ∧
  (has_scheme (Py.strip text) → typed_url text = Py.strip text) ∧
  (¬ has_scheme (Py.strip text) → typed_url text = "https://" +:+ Py.strip text) ∧
  (currentName a = "" → navigateToUrl text a = Some a) ∧
  (currentName a ≠ "" → browsers a !! currentName a = None →
     navigateToUrl text a = None) ∧
  (∀ v, currentName a ≠ "" → browsers a !! currentName a = Some v →
     ∃ a', navigateToUrl text a = Some a' ∧
       (view_url <$> browsers a' !! currentName a) = Some (typed_url text) ∧
       (∀ n, n ≠ currentName a → browsers a' !! n = browsers a !! n) ∧
       currentName a' = currentName a).
Proof.
  split; [apply typed_url_scheme|]. split; [|split; [|split; [|split]]].
  - unfold has_scheme, typed_url. intros [-> | [-> | ->]]; by rewrite ?orb_true_r.
  - unfold has_scheme, typed_url. intros Hno.
    destruct (Py.startswith (Py.strip text) "http://"); [exfalso; auto|].
    destruct (Py.startswith (Py.strip text) "https://"); [exfalso; auto|].
    destruct (Py.startswith (Py.strip text) "chrome://"); [exfalso; auto|].
    done.
  - intros H. unfold navigateToUrl. by rewrite bool_decide_eq_true_2.
  - intros H Hv. unfold navigateToUrl. by rewrite bool_decide_eq_false_2, Hv.
  - intros v H Hv. unfold navigateToUrl. rewrite bool_decide_eq_false_2, Hv by done.
    eexists. split; [done|]. cbn [browsers set_browsers currentName].
    rewrite lookup_insert_eq. split; [done|]. split; [|done].
    intros n Hn. by rewrite lookup_insert_ne.
Qed.

(** ** Log rotation *)

Lemma insert_by_mtime_perm f l : insert_by_mtime f l ≡ₚ f :: l.
Proof.
  induction l as [|g l IH]; [done|]. cbn [insert_by_mtime].
  destruct (log_mtime f <? log_mtime g); [done|].
  rewrite IH. apply Permutation_swap.
Qed.

Lemma insert_by_mtime_sorted f l :
  StronglySorted mtime_le l → StronglySorted mtime_le (insert_by_mtime f l).
Proof.
  induction 1 as [|g l Hl IH Hg]; cbn [insert_by_mtime].
  { repeat constructor. }
  destruct (Z.ltb_spec (log_mtime f) (log_mtime g)) as [Hlt|Hge].
  - constructor; [by constructor|]. constructor; [unfold mtime_le; lia|].
    eapply Forall_impl; [exact Hg|]. unfold mtime_le. intros; lia.
  - constructor; [done|]. rewrite insert_by_mtime_perm. by constructor.
Qed.

Lemma foldl_insert_by_mtime l acc :
  StronglySorted mtime_le acc →
  StronglySorted mtime_le (foldl (λ acc f, insert_by_mtime f acc) acc l) ∧
  foldl (λ acc f, insert_by_mtime f acc) acc l ≡ₚ acc ++ l.
Proof.
  revert acc. induction l as [|f l IH]; intros acc Hacc; cbn [foldl].
  { by rewrite app_nil_r. }
  destruct (IH (insert_by_mtime f acc)) as [H1 H2]; [by apply insert_by_mtime_sorted|].
  split; [done|]. rewrite H2, insert_by_mtime_perm. cbn [app]. apply Permutation_middle.
Qed.

Lemma sorted_by_mtime_spec l :
  StronglySorted mtime_le (sorted_by_mtime l) ∧ sorted_by_mtime l ≡ₚ l.
Proof. apply (foldl_insert_by_mtime l []). constructor. Qed.

Lemma rotateLogs_loop_spec files keep unlinked :
  0 ≤ keep →
  ∃ gone kept, rotateLogs_loop files keep unlinked = Some (unlinked ++ gone, kept) ∧
    gone ++ kept = files ∧
    Z.of_nat (length kept) = Z.min (Z.of_nat (length files)) keep.
Proof.
  intros Hk. revert unlinked. induction files as [|f files IH]; intros unlinked.
  - exists [], []. cbn. rewrite (proj2 (Z.ltb_ge _ _)) by lia. cbn.
    rewrite app_nil_r. repeat split; lia.
  - cbn [rotateLogs_loop]. destruct (Z.ltb_spec keep (Z.of_nat (length (f :: files)))) as [Hlt|Hge].
    + cbn [negb]. destruct (IH (unlinked ++ [f])) as (gone & kept & -> & <- & Hlen).
      exists (f :: gone), kept. rewrite <- app_assoc. split; [done|]. split; [done|].
      cbn [length] in *. rewrite length_app in *. lia.
    + cbn [negb]. exists [], (f :: files). rewrite app_nil_r. repeat split. lia.
Qed.

Lemma rotateLogs_loop_negative files keep unlinked :
  keep < 0 → rotateLogs_loop files keep unlinked = None.
Proof.
  intros Hk. revert unlinked. induction files as [|f files IH]; intros unlinked;
    cbn [rotateLogs_loop];
    rewrite (proj2 (Z.ltb_lt _ _)) by (cbn [length]; lia); cbn [negb]; auto.
Qed.

(** X5.  With [keep >= 0], [rotateLogs] ends, unlinks the oldest files
    first and leaves the [min(n, keep)] newest ones: the unlinked files
    followed by the files kept are the files of the directory in order of
    modification time, so no unlinked file is newer than a file that is
    kept.  With a negative [keep] the loop empties the list and then [pop]
    raises.  A directory that does not exist is left alone. *)
Theorem rotateLogs_keeps_newest (files : list LogFile) (keep : Z) :
  (0 ≤ keep →
   ∃ gone kept, rotateLogs (Some files) keep = Some (gone, kept) ∧
     gone ++ kept ≡ₚ files ∧
     Z.of_nat (length kept) = Z.min (Z.of_nat (length files)) keep ∧
     StronglySorted mtime_le (gone ++ kept) ∧
     (∀ g k, g ∈ gone → k ∈ kept → log_mtime g ≤ log_mtime k)) ∧
  (keep < 0 → rotateLogs (Some files) keep = None) ∧
  rotateLogs None keep = Some ([], []).
Proof.
  destruct (sorted_by_mtime_spec files) as [Hs Hp].
  split; [|split; [|done]].
  - intros Hk. unfold rotateLogs.
    destruct (rotateLogs_loop_spec (sorted_by_mtime files) keep [] Hk)
      as (gone & kept & -> & Hgk & Hlen).
    exists gone, kept. cbn [app]. split; [done|]. rewrite Hgk.
    split; [done|]. split; [by rewrite <- (Permutation_length Hp)|]. split; [done|].
    intros g k Hg Hkk. rewrite <- Hgk in Hs.
    by eapply (StronglySorted_app_1_elem_of mtime_le gone kept).
  - intros Hk. by apply rotateLogs_loop_negative.
Qed.

(** ** More on the import walker *)








Lemma stop_running_spec ctl :
  (stop_running ctl).2 =
    match ctl with
    | Some w => if Walker.active w
                then [OfWalker Walker.EmitStopped; OfWalker Walker.StatusStopped] else []
    | None => []
    end.
Proof.
  destruct ctl as [w|]; [|done]. unfold stop_running.
  destruct (Walker.active w) eqn:Ha; [|done].
  by rewrite WalkerFacts.stop_active.
Qed.

(** X8.  [startImportLogPass] raises exactly when a file was chosen that
    exists and cannot be read.  A cancelled dialog changes nothing; a file
    without pairs only shows the warning and keeps the running import;
    otherwise the lines are remembered, a running import is stopped (its
    [stopped] signal is sent once) and a new walker starts active at the
    first line. *)
Theorem startImportLogPass_supersedes (fs : gmap string File) (path : string)
    (s : ImportState) :
  (path = "" → startImportLogPass fs path s = Some (s, [])) ∧
  (path ≠ "" → parse_logpass_file fs path = Some [] →
     startImportLogPass fs path s = Some (s, [WarnNoLines])) ∧
  (∀ l ls, path ≠ "" → parse_logpass_file fs path = Some (l :: ls) →
     ∃ s' es, startImportLogPass fs path s = Some (s', es) ∧
       importCtl s' = Some {| Walker.lines := l :: ls; Walker.index := 0;
                              Walker.active := true |} ∧
       last_import_file s' = Some path ∧
       last_import_lines s' = l :: ls ∧
       last_import_index s' = 0 ∧
       es = match importCtl s with
            | Some w => if Walker.active w
                        then [OfWalker Walker.EmitStopped; OfWalker Walker.StatusStopped]
                        else []
            | None => []
            end ++ [OfWalker (Walker.StatusStarted 1)]) ∧
  (startImportLogPass fs path s = None ↔ path ≠ "" ∧ fs !! path = Some Unreadable).
Proof.
  unfold startImportLogPass. split; [|split; [|split]].
  - intros ->. done.
  - intros Hp ->. by rewrite bool_decide_eq_false_2.
  - intros l ls Hp ->. rewrite bool_decide_eq_false_2 by done.
    pose proof (stop_running_spec (importCtl s)) as Hs.
    destruct (stop_running (importCtl s)) as [c e_stop]. cbn [snd] in Hs. subst e_stop.
    eexists _, _. split; [done|]. cbn. done.
  - rewrite <- parse_logpass_file_raises.
    case_bool_decide as Hp; [by split; [|intros [? _]]|].
    destruct (parse_logpass_file fs path) as [[|l ls]|]; [by split; [|intros [_ ?]]| |done].
    destruct (stop_running (importCtl s)). by split; [|intros [_ ?]].
Qed.

(** X9.  The "start line" entry of the context menu: without the entry
    chosen nothing happens; with remembered lines a cancelled number dialog
    changes nothing, and an accepted number [idx] restarts the walker on
    the remembered lines with the cursor at [idx - 1], which is also stored
    as the last index; without remembered lines the file is asked for
    first, its lines stay remembered even when the number dialog is then
    cancelled, and a cancelled file dialog or a file without pairs leaves
    the state as it was. *)
Theorem importLogPassContextMenu_start (fs : gmap string File) (path : string)
    (idx : Z) (s : ImportState) :
  (∀ ok, _importLogPassContextMenu fs false path idx ok s = Some (s, [])) ∧
  (last_import_lines s ≠ [] →
     _importLogPassContextMenu fs true path idx false s = Some (s, [])) ∧
  (last_import_lines s ≠ [] →
     ∃ s' es, _importLogPassContextMenu fs true path idx true s = Some (s', es) ∧
       importCtl s' = Some (Walker.start_at_user_index (last_import_lines s) idx) ∧
       last_import_lines s' = last_import_lines s ∧
       last_import_file s' = last_import_file s ∧
       last_import_index s' = idx - 1 ∧
       (1 ≤ idx ≤ Z.of_nat (length (last_import_lines s)) →
        ∀ w, importCtl s' = Some w → Walker.index w = last_import_index s')) ∧
  (∀ l ls, last_import_lines s = [] → path ≠ "" →
     parse_logpass_file fs path = Some (l :: ls) →
     _importLogPassContextMenu fs true path idx false s
       = Some ({| importCtl := importCtl s; last_import_file := Some path;
                  last_import_lines := l :: ls; last_import_index := 0 |}, [])) ∧
  (last_import_lines s = [] →
     path = "" ∨ parse_logpass_file fs path = Some [] →
     ∀ ok, ∃ es, _importLogPassContextMenu fs true path idx ok s = Some (s, es)).
Proof.
  unfold _importLogPassContextMenu. split; [done|]. split; [|split; [|split]].
  - intros Hne. by rewrite bool_decide_eq_false_2.
  - intros Hne. rewrite bool_decide_eq_false_2 by done. cbn [negb].
    destruct (stop_running (importCtl s)) as [c e_stop].
    eexists _, _. split; [done|]. cbn.
    split; [done|]. split; [done|]. split; [done|]. split; [done|].
    intros Hidx w [= <-]. cbn. lia.
  - intros l ls He Hp ->. by rewrite He, bool_decide_eq_true_2, bool_decide_eq_false_2.
  - intros He Hcase ok. rewrite He, bool_decide_eq_true_2 by done.
    case_bool_decide; [by eexists|]. destruct Hcase as [?| ->]; [done|by eexists].
Qed.

(** ** More on the session registry *)

Lemma switchAccount_fixed acc a :
  let a' := switchAccount acc a in
  next_id a' = next_id a ∧ geometry a' = geometry a ∧ appData a' = appData a ∧
  pending a' = pending a.
Proof.
  unfold switchAccount. destruct (browsers a !! acc) as [v|]; [|done].
  by destruct (is_blank_url (view_url v)).
Qed.

Lemma switchAccount_synced acc a v :
  browsers a !! acc = Some v → synced (switchAccount acc a).
Proof. intros Hv. by destruct (switchAccount_Some _ _ _ Hv) as (_&_&_&_&_&_&_&_&_&_&?). Qed.

Lemma addAccount_fixed a a' :
  addAccount a = Some a' → next_id a' = S (next_id a) ∧ geometry a' = geometry a.
Proof.
  unfold addAccount. destruct (nextSteamName a) as [acc|]; [|done].
  cbn [mbind option_bind]. rewrite createProfile_true.
  set (a1 := createProfile acc false a).
  destruct (switchAccount_fixed acc a1) as (Hn & Hg & _).
  set (a2 := switchAccount acc a1) in *.
  set (a3 := if bool_decide (acc ∈ profiles a2) then a2
             else set_profiles (profiles a2 ++ [acc]) a2).
  assert (next_id a3 = next_id a2 ∧ geometry a3 = geometry a2) as [Hn3 Hg3].
  { subst a3. by case_bool_decide. }
  destruct (browsers (saveConfig (set_lastActive acc a3)) !! acc) as [v|]; [|done].
  cbn [mbind option_bind]. destruct (is_blank_url (view_url v)).
  - unfold navigateCurrent. case_bool_decide.
    + intros [= <-]. app_simpl. by rewrite Hn3, Hg3, Hn, Hg.
    + destruct (browsers _ !! currentName _); [|done]. intros [= <-]. app_simpl.
      by rewrite Hn3, Hg3, Hn, Hg.
  - intros [= <-]. app_simpl. by rewrite Hn3, Hg3, Hn, Hg.
Qed.

Lemma deleteProfile_fixed name answer rm a :
  let a' := deleteProfile name answer rm a in
  next_id a' = next_id a ∧ geometry a' = geometry a.
Proof.
  cbv zeta. destruct (browsers a !! name) as [v|] eqn:Hv.
  2:{ by rewrite deleteProfile_absent. }
  destruct answer.
  2:{ by rewrite (deleteProfile_declined _ _ _ _ Hv). }
  assert (∃ m, deleteProfile name true rm a
      = (if bool_decide (lastActive m = "") then m else switchAccount (lastActive m) m) ∧
      next_id m = next_id a ∧ geometry m = geometry a) as (m & -> & Hn & Hg).
  { unfold deleteProfile. rewrite Hv. cbn [negb].
    eexists. split; [reflexivity|].
    app_simpl.
    destruct (popupsByProfile a !! name) as [wins|]; app_simpl;
      destruct (bool_decide (_ ∈ _ ∪ _)); destruct rm as [e|]; app_simpl;
      case_bool_decide; by app_simpl. }
  destruct (bool_decide (lastActive m = "")); [done|].
  destruct (switchAccount_fixed (lastActive m) m) as (-> & -> & _). done.
Qed.

Lemma disk_follows_refl a : disk_follows a a.
Proof. unfold disk_follows. auto 12. Qed.

Ltac disk_same :=
  unfold disk_follows, synced, config_of, clamped; app_simpl;
  repeat split; try done; first [by left | by right | right; lia].

Lemma perform_disk v a act : disk_follows a (perform v a act).
Proof. destruct act; disk_same. Qed.

Lemma disk_follows_trans a b c : disk_follows a b → disk_follows b c → disk_follows a c.
Proof.
  unfold disk_follows. intros (?&?&?&?&?&Hwa&Hab) (?&?&?&?&?&Hwb&Hbc).
  repeat split; try congruence.
  { destruct Hwb as [Hwb|?]; [|by right]. rewrite Hwb. exact Hwa. }
  destruct Hbc as [[? ?]|?]; [|by right].
  destruct Hab as [[? ?]|Hs]; [left; split; congruence|].
  right. unfold synced in *. congruence.
Qed.

Lemma foldl_perform_disk v acts a : disk_follows a (foldl (perform v) a acts).
Proof.
  revert a. induction acts as [|act acts IH]; intros a; [apply disk_follows_refl|].
  cbn [foldl]. eapply disk_follows_trans; [apply perform_disk|apply IH].
Qed.

Lemma on_view_disk name f a : disk_follows a (on_view name f a).
Proof.
  unfold on_view. destruct (browsers a !! name) as [v|]; [|apply disk_follows_refl].
  destruct (f v) as [v' acts].
  eapply disk_follows_trans; [|apply foldl_perform_disk]. disk_same.
Qed.

Lemma deliver_disk k p now a : disk_follows a (deliver k p now a).
Proof.
  unfold deliver. destruct (pending a !! k) as [pd|]; [|apply disk_follows_refl].
  set (a1 := set_pending _ a).
  assert (disk_follows a a1) as H1 by (subst a1; disk_same).
  destruct (browsers a1 !! (target pd).1) as [v|]; [|done].
  case_bool_decide; [|done].
  eapply disk_follows_trans; [exact H1|apply on_view_disk].
Qed.

Lemma _onUrlChanged_disk name u a : disk_follows a (_onUrlChanged name u a).
Proof.
  unfold _onUrlChanged. destruct (browsers a !! name) as [v|]; [|apply disk_follows_refl].
  cbv zeta. app_simpl.
  destruct (negb (bool_decide (currentName a = "")) && bool_decide (currentName a = name));
    destruct (negb (bool_decide (profile_name v = ""))); disk_same.
Qed.

Lemma toggleAccountsPanel_disk a : disk_follows a (toggleAccountsPanel a).
Proof. unfold toggleAccountsPanel. disk_same. Qed.

Lemma _onSplitterMoved_disk sizes a : disk_follows a (_onSplitterMoved sizes a).
Proof.
  unfold _onSplitterMoved. destruct sizes as [|? [|? ?]]; try apply disk_follows_refl.
  destruct (accountsVisible a) eqn:E; [|apply disk_follows_refl]. disk_same.
Qed.

(** Every event keeps the window geometry, only adds object identities,
    and either leaves the persisted fields and the file alone or ends with
    the file rewritten. *)
Lemma handle_persists ev a a' :
  handle ev a = Some a' →
  geometry a' = geometry a ∧ (next_id a ≤ next_id a')%nat ∧
  ((config_of a' = config_of a ∧ config_file a' = config_file a) ∨ synced a').
Proof.
  assert (∀ b, disk_follows a b →
    geometry b = geometry a ∧ (next_id a ≤ next_id b)%nat ∧
    ((config_of b = config_of a ∧ config_file b = config_file a) ∨ synced b)) as Hd.
  { intros b (_ & _ & ? & Hn & _ & _ & ?). rewrite Hn. auto. }
  destruct ev; cbn [handle]; try (intros [= <-]).
  - intros Hadd. destruct (addAccount_fixed _ _ Hadd) as [Hn Hg].
    destruct (addAccount_spec a) as (k & a1 & _ & E & _ & _ & _ & _ & _ & _ & _ & _ & _ & Hs).
    rewrite E in Hadd. injection Hadd as <-. split; [done|]. split; [lia|by right].
  - destruct (switchAccount_fixed acc a) as (Hn & Hg & _).
    split; [done|]. split; [lia|].
    destruct (browsers a !! acc) as [v|] eqn:Hv.
    + right. by eapply switchAccount_synced.
    + rewrite switchAccount_None by done. by left.
  - destruct (deleteProfile_fixed name answer rm a) as (Hn & Hg).
    split; [done|]. split; [lia|].
    destruct (browsers a !! name) as [v|] eqn:Hv.
    2:{ rewrite deleteProfile_absent by done. by left. }
    destruct answer.
    2:{ rewrite (deleteProfile_declined _ _ _ _ Hv). by left. }
    destruct (deleteProfile_confirmed name rm a v Hv) as (m & -> & _ & _ & _ & _ & _ & _ & _ & _ & _ & Hs).
    right. destruct (bool_decide (lastActive m = "")); [done|].
    by apply switchAccount_keeps.
  - split; [done|]. split; [cbn; lia|by left].
  - split; [|split; [|left]].
    + unfold unregisterPopup. destruct (popupsByProfile a !! name) as [[|x arr]|]; try done.
      by destruct (remove_window id (x :: arr)).
    + unfold unregisterPopup. destruct (popupsByProfile a !! name) as [[|x arr]|]; try done.
      by destruct (remove_window id (x :: arr)).
    + unfold unregisterPopup. destruct (popupsByProfile a !! name) as [[|x arr]|]; try done.
      by destruct (remove_window id (x :: arr)).
  - apply Hd, _onUrlChanged_disk.
  - apply Hd, on_view_disk.
  - apply Hd, on_view_disk.
  - apply Hd, on_view_disk.
  - apply Hd, deliver_disk.
  - apply Hd, toggleAccountsPanel_disk.
  - apply Hd, _onSplitterMoved_disk.
Qed.

Lemma foldl_createProfile_disk l a :
  let a' := foldl (λ a name, createProfile name false a) a l in
  config_of a' = config_of a ∧ config_file a' = config_file a ∧
  geometry a' = geometry a ∧ appData a' = appData a ∧
  popupsByProfile a' = popupsByProfile a ∧
  (∀ name, is_Some (browsers a' !! name) →
     is_Some (browsers a !! name) ∨ profileDir_path a name ∈ dirs a') ∧
  dirs a ⊆ dirs a'.
Proof.
  revert a. induction l as [|name l IH]; intros a; cbn [foldl].
  { repeat split; auto. }
  destruct (IH (createProfile name false a)) as (-> & -> & -> & -> & -> & Hb & Hd).
  repeat split; try done.
  - intros n Hn. destruct (Hb n Hn) as [Hn'|Hn'].
    + change (browsers (createProfile name false a))
        with (<[name := new_view (next_id a) name]> (browsers a)) in Hn'.
      destruct (decide (n = name)) as [->|Hne].
      * right. apply Hd. cbn. apply elem_of_union_l, elem_of_singleton_2. done.
      * rewrite lookup_insert_ne in Hn' by done. by left.
    + by right.
  - etrans; [|exact Hd]. cbn. apply union_subseteq_r.
Qed.

(** X10.  After any run of events from start-up, either nothing that is
    persisted has changed and the configuration file is the one found at
    start-up, or the file reads back, with [loadConfig], as exactly the
    profiles, last active name, remembered locations and panel settings of
    the current state.  (Writes are taken to succeed.) *)
Theorem config_file_never_stale (c : Config) (f : ConfigFile) (data geo : string)
    (ds : gset string) (evs : list Event) (a : App) :
  run_events evs (boot c f data geo ds) = Some a →
  (config_file a = f ∧ config_of a = c) ∨
  (∀ py_repr py_int_of_str c0,
     loadConfig py_repr py_int_of_str c0 (config_file a) = Some (config_of a)).
Proof.
  enough (run_events evs (boot c f data geo ds) = Some a →
          (config_file a = f ∧ config_of a = c) ∨
          (synced a ∧
           ∀ py_repr py_int_of_str c0,
             loadConfig py_repr py_int_of_str c0 (config_file a) = Some (config_of a)))
    as Hen by (intros Hrun; destruct (Hen Hrun) as [?|[_ ?]]; auto).
  assert (∀ b, synced b → ∀ py_repr py_int_of_str c0,
     loadConfig py_repr py_int_of_str c0 (config_file b) = Some (config_of b)) as Hload.
  { intros b Hs ???. rewrite Hs. apply loadConfig_config_doc. }
  assert ((config_file (boot c f data geo ds) = f ∧ config_of (boot c f data geo ds) = c)
          ∨ synced (boot c f data geo ds)) as Hboot.
  { unfold boot. set (a0 := mkApp _ _ _ _ _ _ _ _ _ _ _ _ _ _ _ _).
    destruct (foldl_createProfile_disk (profiles a0) a0) as (Hc & Hf & _).
    set (a1 := foldl _ a0 _) in *.
    case_bool_decide as Hl.
    - right. destruct Hl as [v Hv]. by eapply switchAccount_synced.
    - left. rewrite Hc, Hf. by destruct c. }
  revert Hboot. generalize (boot c f data geo ds). intros b Hb.
  revert b Hb. induction evs as [|ev evs IH]; intros b Hb; cbn [run_events].
  - intros [= <-]. destruct Hb as [?|Hs]; [by left|right; auto].
  - destruct (handle ev b) as [b'|] eqn:Hstep; [|done]. cbn.
    apply IH. destruct (handle_persists _ _ _ Hstep) as (_ & _ & [[Hc Hf]|Hs]); [|by right].
    destruct Hb as [[? ?]|Hs]; [left; split; congruence|].
    right. unfold synced in *. destruct (handle_persists _ _ _ Hstep) as (Hg & _).
    rewrite Hf, Hc, Hg. done.
Qed.

Lemma config_file_never_stale_witness :
  let c := default_config in
  let evs := [EvAddAccount; EvUrlChanged "Steam 1" HOME; EvToggleAccountsPanel] in
  ∃ a, run_events evs (boot c NoFile "/data" "" ∅) = Some a ∧
  ((config_file a = NoFile ∧ config_of a = c) ∨
   (∀ py_repr py_int_of_str c0,
      loadConfig py_repr py_int_of_str c0 (config_file a) = Some (config_of a))).
Proof.
  intros c evs. eexists. split; [vm_compute; reflexivity|].
  apply (config_file_never_stale c NoFile "/data" "" ∅ evs). vm_compute. reflexivity.
Defined.

Lemma remove_first_keeps x y l : y ∈ l → y ≠ x → y ∈ remove_first x l.
Proof.
  induction l as [|z l IH]; cbn [remove_first]; [done|].
  intros Hy Hne. case_bool_decide as Hz.
  - apply elem_of_cons in Hy as [->|Hy]; [by subst|done].
  - apply elem_of_cons in Hy as [->|Hy]; [by left|]. right. by apply IH.
Qed.

Lemma list_to_set_remove_first x l :
  NoDup l → list_to_set (remove_first x l) =@{gset string} list_to_set l ∖ {[x]}.
Proof.
  intros Hnd. apply set_eq. intros y.
  rewrite elem_of_difference, !elem_of_list_to_set, elem_of_singleton. split.
  - intros Hy. split; [by eapply remove_first_subset|].
    intros ->. by apply (remove_first_gone x l).
  - intros [? ?]. by apply remove_first_keeps.
Qed.

Lemma profileDir_path_appData a a' n :
  appData a' = appData a → profileDir_path a' n = profileDir_path a n.
Proof. unfold profileDir_path. by intros ->. Qed.

Lemma focus_ok_dom a a' :
  dom (browsers a') = dom (browsers a) →
  currentName a' = currentName a ∨ currentName a' ∈ dom (browsers a') →
  focus_ok a → focus_ok a'.
Proof.
  unfold focus_ok. intros Hd [Hc|Hc] H.
  - rewrite Hc. destruct H as [?|[H|H]]; [by left| |].
    + right. left. apply elem_of_dom. rewrite Hd. by apply elem_of_dom.
    + right. right. apply dom_empty_iff_L. rewrite Hd. by apply dom_empty_iff_L.
  - right. left. by apply elem_of_dom.
Qed.

Lemma registry_core_frame c a a' :
  profiles a' = profiles a →
  dom (browsers a') = dom (browsers a) →
  dirs a' = dirs a → appData a' = appData a →
  registry_core c a → registry_core c a'.
Proof.
  intros Hp Hd Hdir Happ (J1 & J2 & J4).
  split; [|split].
  - intros Hnd. rewrite Hp, Hd. auto.
  - rewrite Hp. auto.
  - intros n Hn. rewrite (profileDir_path_appData a a') by done. rewrite Hdir.
    apply J4, elem_of_dom. rewrite <- Hd. by apply elem_of_dom.
Qed.

Lemma registry_agrees_frame c a a' :
  profiles a' = profiles a →
  dom (browsers a') = dom (browsers a) →
  currentName a' = currentName a ∨ currentName a' ∈ dom (browsers a') →
  dirs a' = dirs a → appData a' = appData a →
  registry_agrees c a → registry_agrees c a'.
Proof.
  intros Hp Hd Hc Hdir Happ (Hcore & J3).
  split; [by eapply registry_core_frame|].
  intros Hnd Hne. eapply focus_ok_dom; eauto.
Qed.

Lemma registry_agrees_quiet c a a' :
  same_registry a a' → disk_follows a a' →
  registry_agrees c a → registry_agrees c a'.
Proof.
  intros (Hp & Hc & _ & Hd) (Hdir & Happ & _).
  apply registry_agrees_frame; auto.
Qed.

Lemma switchAccount_core c acc a :
  registry_core c a → registry_core c (switchAccount acc a).
Proof.
  destruct (browsers a !! acc) as [v|] eqn:Hv.
  - destruct (switchAccount_Some _ _ _ Hv)
      as (Hp & Hc & _ & Hd & _ & _ & _ & Hdir & _ & Happ & _).
    by apply registry_core_frame.
  - by rewrite switchAccount_None.
Qed.

Lemma switchAccount_agrees c acc a :
  registry_agrees c a → registry_agrees c (switchAccount acc a).
Proof.
  destruct (browsers a !! acc) as [v|] eqn:Hv.
  - destruct (switchAccount_Some _ _ _ Hv)
      as (Hp & Hc & _ & Hd & _ & _ & _ & Hdir & _ & Happ & _).
    apply registry_agrees_frame; auto.
    right. rewrite Hc, Hd. apply elem_of_dom. eauto.
  - by rewrite switchAccount_None.
Qed.

Lemma createWindow_disk name a :
  let a' := createWindow name a in
  dirs a' = dirs a ∧ appData a' = appData a ∧ next_id a' = S (S (next_id a)).
Proof. done. Qed.

Lemma unregisterPopup_disk name id a :
  let a' := unregisterPopup name id a in
  dirs a' = dirs a ∧ appData a' = appData a ∧ next_id a' = next_id a.
Proof.
  unfold unregisterPopup. destruct (popupsByProfile a !! name) as [[|x arr]|]; try done.
  by destruct (remove_window id (x :: arr)).
Qed.

Lemma boot_agrees c f data geo ds : registry_agrees c (boot c f data geo ds).
Proof.
  unfold boot. set (a0 := mkApp _ _ _ _ _ _ _ _ _ _ _ _ _ _ _ _).
  destruct (foldl_createProfile (profiles a0) a0) as (Hp & Hc & _ & _ & _ & Hd).
  destruct (foldl_createProfile_disk (profiles a0) a0) as (_ & _ & _ & Happ & _ & Hb & _).
  set (a1 := foldl _ a0 _) in *.
  assert (registry_agrees c a1) as H1.
  { split; [split; [|split]|].
    - intros _. rewrite Hd, Hp. subst a0. cbn. set_solver.
    - by rewrite Hp.
    - intros n Hn. destruct (Hb n Hn) as [Hn'|Hn'].
      + subst a0. cbn in Hn'. rewrite lookup_empty in Hn'. by destruct Hn'.
      + by rewrite (profileDir_path_appData a0 a1).
    - intros _ _. left. by rewrite Hc. }
  case_bool_decide; [by apply switchAccount_agrees|done].
Qed.

Lemma handle_agrees c ev a a' :
  handle ev a = Some a' → registry_inv c a →
  registry_agrees c a → registry_agrees c a'.
Proof.
  intros Hstep (_ & Hnodup & _) Hagree.
  destruct ev; cbn [handle] in Hstep; try (injection Hstep as <-).
  - (* addAccount *)
    destruct (addAccount_spec a)
      as (k & a1 & _ & E & Hp & Hc & _ & Hd & _ & _ & Hdir & Happ & _).
    rewrite E in Hstep. injection Hstep as <-.
    destruct Hagree as ((J1 & J2 & J4) & J3).
    split; [split; [|split]|].
    + intros Hnd. rewrite Hd, Hp, (J1 Hnd). case_bool_decide as Hin.
      * assert (steamName k ∈ (list_to_set (profiles a) : gset string))
          by (by apply elem_of_list_to_set).
        set_solver.
      * rewrite list_to_set_app_L. cbn. set_solver.
    + intros Hne. rewrite Hp. case_bool_decide; [auto|].
      rewrite elem_of_app, list_elem_of_singleton. intros [?|Hs]; [by apply J2|].
      by apply (steamName_nonempty k).
    + intros n Hn. rewrite (profileDir_path_appData a a1) by done. rewrite Hdir.
      apply elem_of_dom in Hn. rewrite Hd in Hn.
      apply elem_of_union in Hn as [Hn|Hn].
      * apply elem_of_singleton in Hn as ->. apply elem_of_union_l, elem_of_singleton_2. done.
      * apply elem_of_union_r, J4. by apply elem_of_dom.
    + intros _ _. right. left. apply elem_of_dom. rewrite Hc, Hd.
      apply elem_of_union_l, elem_of_singleton_2. done.
  - by apply switchAccount_agrees.
  - (* deleteProfile *)
    destruct (browsers a !! name) as [v|] eqn:Hv.
    2:{ by rewrite deleteProfile_absent. }
    destruct answer.
    2:{ rewrite (deleteProfile_declined _ _ _ _ Hv).
        eapply registry_agrees_frame; [..|exact Hagree]; auto. }
    destruct (deleteProfile_confirmed name rm a v Hv)
      as (m & -> & Hb & _ & Hp & _ & Hl & Hc & Happ & Hdir & _).
    destruct Hagree as ((J1 & J2 & J4) & J3).
    assert (NoDup (cfg_profiles c) → dom (browsers m) = list_to_set (profiles m)) as M1.
    { intros Hnd. rewrite Hb, Hp, dom_delete_L, (J1 Hnd). case_bool_decide as Hin.
      - symmetry. apply list_to_set_remove_first. auto.
      - assert (name ∉ (list_to_set (profiles a) : gset string))
          by (by rewrite elem_of_list_to_set).
        set_solver. }
    assert ("" ∉ cfg_profiles c → "" ∉ profiles m) as M2.
    { intros Hne. rewrite Hp. case_bool_decide; [|auto].
      intros Hin. apply remove_first_subset in Hin. by apply J2. }
    assert (∀ n, is_Some (browsers m !! n) → profileDir_path m n ∈ dirs m) as M4.
    { intros n Hn. rewrite Hb in Hn. apply lookup_delete_is_Some in Hn as [Hne Hn].
      rewrite (profileDir_path_appData a m) by done. rewrite Hdir.
      assert (profileDir_path a n ≠ profileDir_path a name)
        by (intros Heq; by apply profileDir_path_inj in Heq).
      specialize (J4 n Hn). destruct rm; set_solver. }
    assert (registry_core c m) as Hm by done.
    assert (NoDup (cfg_profiles c) → "" ∉ cfg_profiles c → lastActive m ≠ "" →
            is_Some (browsers m !! lastActive m)) as Hlive.
    { intros Hnd Hne Hla. apply elem_of_dom. rewrite (M1 Hnd).
      apply elem_of_list_to_set. rewrite Hl in Hla |- *.
      destruct (profiles m); [done|]. by left. }
    destruct (decide (lastActive m = "")) as [Hla|Hla];
      [rewrite bool_decide_eq_true_2 by done|rewrite bool_decide_eq_false_2 by done].
    + split; [done|].
      intros Hnd Hne. right. right. apply dom_empty_iff_L. rewrite (M1 Hnd).
      specialize (M2 Hne). rewrite Hla in Hl.
      destruct (profiles m) as [|p ps]; [done|]. subst p.
      exfalso. apply M2. by left.
    + split; [by apply switchAccount_core|].
      intros Hnd Hne. destruct (Hlive Hnd Hne Hla) as [v' Hv'].
      destruct (switchAccount_Some _ _ _ Hv') as (_ & Hc' & _ & _ & (v2 & Hv2 & _) & _).
      right. left. rewrite Hc'. eauto.
  - destruct (createWindow_spec name a) as (Hp & Hc & Hb & _).
    destruct (createWindow_disk name a) as (Hdir & Happ & _).
    eapply registry_agrees_frame; [..|exact Hagree]; auto; by rewrite Hb.
  - destruct (unregisterPopup_spec name id a) as (Hp & Hc & Hb & _).
    destruct (unregisterPopup_disk name id a) as (Hdir & Happ & _).
    eapply registry_agrees_frame; [..|exact Hagree]; auto; by rewrite Hb.
  - eapply registry_agrees_quiet; [apply _onUrlChanged_same|apply _onUrlChanged_disk|done].
  - eapply registry_agrees_quiet; [apply on_view_same|apply on_view_disk|done].
  - eapply registry_agrees_quiet; [apply on_view_same|apply on_view_disk|done].
  - eapply registry_agrees_quiet; [apply on_view_same|apply on_view_disk|done].
  - eapply registry_agrees_quiet; [apply deliver_same|apply deliver_disk|done].
  - eapply registry_agrees_quiet; [apply toggleAccountsPanel_same|apply toggleAccountsPanel_disk|done].
  - eapply registry_agrees_quiet; [apply onSplitterMoved_same|apply _onSplitterMoved_disk|done].
Qed.

Lemma reachable_agrees c a : reachable c a → registry_agrees c a.
Proof.
  induction 1 as [f data geo ds|a ev a' Hreach IH Hstep]; [apply boot_agrees|].
  eapply handle_agrees; eauto. by apply reachable_inv.
Qed.

(** ** The popup registry is well formed *)

Lemma popups_wf_at_mono P n n' : (n ≤ n')%nat → popups_wf_at P n → popups_wf_at P n'.
Proof.
  intros Hle H name wins Hw. destruct (H name wins Hw) as [Hne Hall].
  split; [done|]. eapply Forall_impl; [exact Hall|]. cbn. intros. lia.
Qed.

Lemma popups_wf_at_shown acc P n : popups_wf_at P n → popups_wf_at (shown_for acc P) n.
Proof.
  intros H name wins Hw. rewrite shown_for_lookup in Hw.
  destruct (P !! name) as [wins0|] eqn:E; [|done]. injection Hw as <-.
  destruct (H name wins0 E) as [Hne Hall]. split.
  - by destruct wins0.
  - apply Forall_fmap. eapply Forall_impl; [exact Hall|]. done.
Qed.

Lemma popups_wf_at_delete name P n : popups_wf_at P n → popups_wf_at (delete name P) n.
Proof.
  intros H k wins Hw. apply lookup_delete_Some in Hw as [_ Hw]. exact (H _ _ Hw).
Qed.

Lemma popups_wf_at_insert name wins P n :
  wins ≠ [] → Forall (λ w, (win_id w < n)%nat) wins →
  popups_wf_at P n → popups_wf_at (<[name := wins]> P) n.
Proof.
  intros Hne Hall H k ws Hw. apply lookup_insert_Some in Hw as [[_ <-]|[_ Hw]]; [done|].
  exact (H _ _ Hw).
Qed.

Lemma popups_wf_switchAccount acc a : popups_wf a → popups_wf (switchAccount acc a).
Proof.
  unfold popups_wf. destruct (switchAccount_fixed acc a) as (-> & _).
  destruct (browsers a !! acc) as [v|] eqn:Hv.
  - destruct (switchAccount_Some _ _ _ Hv) as (_ & _ & _ & _ & _ & -> & _).
    apply popups_wf_at_shown.
  - by rewrite switchAccount_None.
Qed.

Lemma popups_wf_createWindow name a : popups_wf a → popups_wf (createWindow name a).
Proof.
  unfold popups_wf. intros H.
  destruct (createWindow_spec name a) as (_ & _ & _ & ->).
  destruct (createWindow_disk name a) as (_ & _ & ->).
  apply popups_wf_at_insert.
  - by destruct (default [] (popupsByProfile a !! name)).
  - apply Forall_app. split.
    + destruct (popupsByProfile a !! name) as [wins|] eqn:E; [|by apply Forall_nil].
      cbn. eapply Forall_impl; [apply (H name wins E)|]. cbn. intros. lia.
    + apply Forall_singleton. cbn. lia.
  - eapply popups_wf_at_mono; [|exact H]. lia.
Qed.

Lemma Forall_remove_window (Q : PopupWindow → Prop) id arr :
  Forall Q arr → Forall Q (remove_window id arr).
Proof.
  intros H. apply Forall_forall. intros w Hw.
  apply remove_window_subset in Hw. by eapply Forall_forall in H.
Qed.

Lemma popups_wf_unregisterPopup name id a :
  popups_wf a → popups_wf (unregisterPopup name id a).
Proof.
  unfold popups_wf, unregisterPopup. intros H.
  destruct (popupsByProfile a !! name) as [[|x arr]|] eqn:E; try done.
  destruct (remove_window id (x :: arr)) as [|y arr'] eqn:Er; app_simpl.
  - by apply popups_wf_at_delete.
  - apply popups_wf_at_insert; [done| |done].
    rewrite <- Er. apply Forall_remove_window, (H name _ E).
Qed.

Lemma popups_wf_quiet a a' :
  same_registry a a' → disk_follows a a' → popups_wf a → popups_wf a'.
Proof.
  unfold popups_wf. intros (_ & _ & -> & _) (_ & _ & _ & -> & _). done.
Qed.

Lemma boot_popups_wf c f data geo ds : popups_wf (boot c f data geo ds).
Proof.
  unfold boot. set (a0 := mkApp _ _ _ _ _ _ _ _ _ _ _ _ _ _ _ _).
  destruct (foldl_createProfile (profiles a0) a0) as (_ & _ & _ & Hpop & _).
  set (a1 := foldl _ a0 _) in *.
  assert (popups_wf a1) as H1.
  { unfold popups_wf. rewrite Hpop. intros name wins Hw. subst a0. cbn in Hw.
    by rewrite lookup_empty in Hw. }
  case_bool_decide; [by apply popups_wf_switchAccount|done].
Qed.

Lemma handle_popups_wf ev a a' :
  handle ev a = Some a' → popups_wf a → popups_wf a'.
Proof.
  intros Hstep Hwf.
  destruct ev; cbn [handle] in Hstep; try (injection Hstep as <-).
  - destruct (addAccount_fixed _ _ Hstep) as [Hn _].
    destruct (addAccount_spec a) as (k & a1 & _ & E & _ & _ & _ & _ & Hpop & _).
    rewrite E in Hstep. injection Hstep as <-.
    unfold popups_wf. rewrite Hpop, Hn. apply popups_wf_at_shown.
    eapply popups_wf_at_mono; [|exact Hwf]. lia.
  - by apply popups_wf_switchAccount.
  - destruct (browsers a !! name) as [v|] eqn:Hv.
    2:{ by rewrite deleteProfile_absent. }
    destruct answer.
    2:{ by rewrite (deleteProfile_declined _ _ _ _ Hv). }
    pose proof (deleteProfile_fixed name true rm a) as Hfix. cbv zeta in Hfix.
    destruct (deleteProfile_confirmed name rm a v Hv) as (m & E & _ & Hpop & _).
    rewrite E in Hfix |- *.
    assert (popups_wf m) as Hm.
    { unfold popups_wf. rewrite Hpop.
      destruct (bool_decide (lastActive m = "")).
      - destruct Hfix as [-> _]. by apply popups_wf_at_delete.
      - destruct (switchAccount_fixed (lastActive m) m) as (Hn & _).
        rewrite <- Hn. destruct Hfix as [-> _]. by apply popups_wf_at_delete. }
    destruct (bool_decide (lastActive m = "")); [done|].
    by apply popups_wf_switchAccount.
  - by apply popups_wf_createWindow.
  - by apply popups_wf_unregisterPopup.
  - eapply popups_wf_quiet; [apply _onUrlChanged_same|apply _onUrlChanged_disk|done].
  - eapply popups_wf_quiet; [apply on_view_same|apply on_view_disk|done].
  - eapply popups_wf_quiet; [apply on_view_same|apply on_view_disk|done].
  - eapply popups_wf_quiet; [apply on_view_same|apply on_view_disk|done].
  - eapply popups_wf_quiet; [apply deliver_same|apply deliver_disk|done].
  - eapply popups_wf_quiet; [apply toggleAccountsPanel_same|apply toggleAccountsPanel_disk|done].
  - eapply popups_wf_quiet; [apply onSplitterMoved_same|apply _onSplitterMoved_disk|done].
Qed.

Lemma reachable_popups_wf c a : reachable c a → popups_wf a.
Proof.
  induction 1 as [f data geo ds|a ev a' Hreach IH Hstep]; [apply boot_popups_wf|].
  by eapply handle_popups_wf.
Qed.

Lemma remove_window_fresh id arr w :
  Forall (λ x, win_id x ≠ id) arr → win_id w = id →
  remove_window id (arr ++ [w]) = arr.
Proof.
  intros Hall Hw. induction Hall as [|x arr Hx Hall IH]; cbn [app remove_window].
  - by rewrite bool_decide_eq_true_2.
  - rewrite bool_decide_eq_false_2 by done. by rewrite IH.
Qed.

(** X11.  When the loaded profile list has no duplicate, the live
    sessions of every reachable state are exactly the profiles of the
    list.  When every loaded name is a generated one ("Steam n"), so that
    each name is one plain path segment, every live session has a
    generated name and its profile directory is on disk, whatever was
    deleted before.  When the loaded list holds no empty name, no profile
    ever has the empty name. *)
Theorem live_sessions_listed_and_stored (c : Config) (a : App) :
  reachable c a →
  (NoDup (cfg_profiles c) →
     ∀ name, is_Some (browsers a !! name) ↔ name ∈ profiles a) ∧
  (Forall generated (cfg_profiles c) →
     ∀ name, is_Some (browsers a !! name) →
       generated name ∧ profileDir_path a name ∈ dirs a) ∧
  ("" ∉ cfg_profiles c → "" ∉ profiles a).
Proof.
  intros Hreach. destruct (reachable_agrees c a Hreach) as ((J1 & J2 & J4) & _).
  destruct (reachable_inv c a Hreach) as (_ & _ & Hgen).
  split; [|split; [|done]].
  - intros Hnd name. rewrite <- elem_of_dom, (J1 Hnd). apply elem_of_list_to_set.
  - intros Hall name Hlive. split; [|by apply J4].
    by apply Hgen, elem_of_dom.
Qed.

Lemma live_sessions_listed_and_stored_witness :
  let c := default_config in
  let a0 := boot c NoFile "/data" "" ∅ in
  ∃ a, run_events [EvAddAccount; EvAddAccount; EvAddAccount;
                   EvDeleteProfile "Steam 2" true None] a0 = Some a ∧
  profiles a = ["Steam 1"; "Steam 3"] ∧
  (NoDup (cfg_profiles c) →
     ∀ name, is_Some (browsers a !! name) ↔ name ∈ profiles a) ∧
  (Forall generated (cfg_profiles c) →
     ∀ name, is_Some (browsers a !! name) →
       generated name ∧ profileDir_path a name ∈ dirs a) ∧
  ("" ∉ cfg_profiles c → "" ∉ profiles a).
Proof.
  intros c a0. eexists. split; [vm_compute; reflexivity|]. split; [reflexivity|].
  apply (live_sessions_listed_and_stored c).
  eapply (run_events_reachable c
            [EvAddAccount; EvAddAccount; EvAddAccount;
             EvDeleteProfile "Steam 2" true None]).
  - apply (reach_boot c NoFile "/data" "" ∅).
  - vm_compute. reflexivity.
Defined.

(** X12.  From a configuration without duplicate or empty profile names,
    while at least one session is live the focus is empty or on a live
    session, so [navigateCurrent], [navigateToUrl] and [callOnCurrent]
    never raise. *)
Theorem navigation_safe_while_live (c : Config) (a : App) :
  reachable c a → NoDup (cfg_profiles c) → "" ∉ cfg_profiles c →
  browsers a ≠ ∅ →
  ∀ url text, is_Some (navigateCurrent url a) ∧ is_Some (navigateToUrl text a) ∧
              is_Some (callOnCurrent a).
Proof.
  intros Hreach Hnd Hne Hlive url text.
  destruct (reachable_agrees c a Hreach) as (_ & J3).
  destruct (J3 Hnd Hne) as [Hc|[[v Hv]|?]]; [| |done];
    unfold navigateCurrent, navigateToUrl, callOnCurrent.
  - rewrite !bool_decide_eq_true_2 by done. eauto.
  - rewrite Hv. repeat split; case_bool_decide; eauto.
Qed.

(** X13.  From a configuration without duplicate or empty profile names,
    a confirmed [deleteProfile] of a live session, focused or not, ends
    with the focus and [lastActive] on the first profile left in the list,
    which is live; when no profile is left, no session is live and
    [lastActive] is empty. *)
Theorem deleteProfile_refocuses_first (c : Config) (a : App)
    (name : string) (rm : option string) :
  reachable c a → NoDup (cfg_profiles c) → "" ∉ cfg_profiles c →
  is_Some (browsers a !! name) →
  let a' := deleteProfile name true rm a in
  match profiles a' with
  | [] => browsers a' = ∅ ∧ lastActive a' = ""
  | p :: _ => currentName a' = p ∧ lastActive a' = p ∧ is_Some (browsers a' !! p)
  end.
Proof.
  intros Hreach Hnd Hne [v Hv] a'.
  assert (reachable c a') as Hreach'.
  { eapply reach_step; [exact Hreach|]. by instantiate (1 := EvDeleteProfile name true rm). }
  destruct (reachable_agrees c a' Hreach') as ((J1 & J2 & _) & _).
  specialize (J1 Hnd). specialize (J2 Hne). subst a'.
  destruct (deleteProfile_confirmed name rm a v Hv) as (m & E & _ & _ & _ & _ & Hl & _).
  rewrite E in J1, J2 |- *. clear E.
  destruct (decide (lastActive m = "")) as [Hla|Hla].
  - rewrite bool_decide_eq_true_2 in J1, J2 |- * by done.
    rewrite Hla in Hl. destruct (profiles m) as [|p ps].
    + split; [|done]. apply dom_empty_iff_L. by rewrite J1.
    + subst p. exfalso. apply J2. by left.
  - rewrite bool_decide_eq_false_2 in J1, J2 |- * by done.
    destruct (switchAccount_keeps (lastActive m) m) as (Hp & _ & _ & _ & Hd & _).
    rewrite Hp in J1, J2 |- *. rewrite Hd in J1.
    destruct (profiles m) as [|p ps] eqn:Hpm; [done|]. rewrite Hl.
    assert (is_Some (browsers m !! p)) as [v' Hv'].
    { apply elem_of_dom. rewrite J1. apply elem_of_list_to_set. by left. }
    destruct (switchAccount_Some _ _ _ Hv') as (_ & Hc' & Hl' & _ & (v2 & Hv2 & _) & _).
    eauto.
Qed.

(** X14.  In every reachable state the popup registry holds no empty
    list and only windows created earlier; opening a popup for any name and
    then destroying that window gives back the registry as it was. *)
Theorem popup_open_close_round_trip (c : Config) (a : App) :
  reachable c a →
  (∀ name wins, popupsByProfile a !! name = Some wins →
     wins ≠ [] ∧ Forall (λ w, (win_id w < next_id a)%nat) wins) ∧
  ∀ name,
    popupsByProfile (unregisterPopup name (S (next_id a)) (createWindow name a))
      = popupsByProfile a.
Proof.
  intros Hreach. pose proof (reachable_popups_wf c a Hreach) as Hwf.
  split; [exact Hwf|]. intros name.
  destruct (createWindow_spec name a) as (_ & _ & _ & Hpop).
  unfold unregisterPopup. rewrite Hpop, lookup_insert_eq.
  set (w := {| win_id := S (next_id a); win_visible := _ |}) in *.
  destruct (popupsByProfile a !! name) as [wins|] eqn:E; cbn [default from_option id app].
  - destruct (Hwf name wins E) as [Hne Hall].
    assert (remove_window (S (next_id a)) (wins ++ [w]) = wins) as Hrm.
    { apply remove_window_fresh; [|done].
      eapply Forall_impl; [exact Hall|]. cbn. intros. lia. }
    destruct wins as [|x wins]; [done|]. cbn [app] in *. rewrite Hrm.
    app_simpl. rewrite insert_insert_eq. by apply insert_id.
  - cbn [remove_window win_id w]. rewrite bool_decide_eq_true_2 by done.
    app_simpl. by apply delete_insert_id.
Qed.

Lemma navigation_safe_while_live_witness :
  let a0 := boot default_config NoFile "/data" "" ∅ in
  ∃ a, run_events [EvAddAccount; EvAddAccount; EvDeleteProfile "Steam 1" true None] a0
       = Some a ∧
  ∀ url text, is_Some (navigateCurrent url a) ∧ is_Some (navigateToUrl text a) ∧
              is_Some (callOnCurrent a).
Proof.
  intros a0. eexists. split; [vm_compute; reflexivity|].
  apply (navigation_safe_while_live default_config).
  - eapply (run_events_reachable default_config
              [EvAddAccount; EvAddAccount; EvDeleteProfile "Steam 1" true None]).
    + apply (reach_boot default_config NoFile "/data" "" ∅).
    + vm_compute. reflexivity.
  - constructor.
  - apply not_elem_of_nil.
  - intros H. apply (f_equal size) in H. vm_compute in H. discriminate H.
Defined.

Lemma deleteProfile_refocuses_first_witness :
  let a0 := boot default_config NoFile "/data" "" ∅ in
  ∃ a, run_events [EvAddAccount; EvAddAccount; EvAddAccount] a0 = Some a ∧
  let a' := deleteProfile "Steam 2" true (Some "PermissionError") a in
  match profiles a' with
  | [] => browsers a' = ∅ ∧ lastActive a' = ""
  | p :: _ => currentName a' = p ∧ lastActive a' = p ∧ is_Some (browsers a' !! p)
  end.
Proof.
  intros a0. eexists. split; [vm_compute; reflexivity|].
  apply (deleteProfile_refocuses_first default_config).
  - eapply (run_events_reachable default_config [EvAddAccount; EvAddAccount; EvAddAccount]).
    + apply (reach_boot default_config NoFile "/data" "" ∅).
    + vm_compute. reflexivity.
  - constructor.
  - apply not_elem_of_nil.
  - vm_compute. eauto.
Defined.

Lemma popup_open_close_round_trip_witness :
  let a0 := boot default_config NoFile "/data" "" ∅ in
  ∃ a, run_events [EvAddAccount; EvCreateWindow "Steam 1"] a0 = Some a ∧
  (∀ name wins, popupsByProfile a !! name = Some wins →
     wins ≠ [] ∧ Forall (λ w, (win_id w < next_id a)%nat) wins) ∧
  ∀ name,
    popupsByProfile (unregisterPopup name (S (next_id a)) (createWindow name a))
      = popupsByProfile a.
Proof.
  intros a0. eexists. split; [vm_compute; reflexivity|].
  apply (popup_open_close_round_trip default_config).
  eapply (run_events_reachable default_config [EvAddAccount; EvCreateWindow "Steam 1"]).
  - apply (reach_boot default_config NoFile "/data" "" ∅).
  - vm_compute. reflexivity.
Defined.

(** ** Failure recovery leaves the sessions alone *)

Lemma recovery_only_refl a : recovery_only a a.
Proof.
  unfold recovery_only. split_and!; try done.
  exists []. by rewrite app_nil_r.
Qed.

Lemma recovery_only_trans a b c :
  recovery_only a b → recovery_only b c → recovery_only a c.
Proof.
  unfold recovery_only.
  intros (?&?&?&?&?&?&?&Hu1&Hr1&es1&Ht1&Hf1) (?&?&?&?&?&?&?&Hu2&Hr2&es2&Ht2&Hf2).
  split_and!; try congruence.
  exists (es1 ++ es2). split; [by rewrite Ht2, Ht1, app_assoc|by apply Forall_app].
Qed.

Lemma perform_recovery v a act : recovery_only a (perform v a act).
Proof.
  destruct act; unfold recovery_only; cbn [perform]; app_simpl;
    split_and!; try done.
  all: first [ by (eexists [_]; split; [reflexivity|by apply Forall_singleton])
             | by (exists []; split; [by rewrite app_nil_r|done]) ].
Qed.

Lemma foldl_perform_recovery v acts a : recovery_only a (foldl (perform v) a acts).
Proof.
  revert a. induction acts as [|act acts IH]; intros a; [apply recovery_only_refl|].
  cbn [foldl]. eapply recovery_only_trans; [apply perform_recovery|apply IH].
Qed.

Lemma on_view_recovery name f a :
  keeps_page f → recovery_only a (on_view name f a).
Proof.
  intros Hf. unfold on_view.
  destruct (browsers a !! name) as [v|] eqn:Hv; [|apply recovery_only_refl].
  destruct (Hf v) as [Hu Hr]. destruct (f v) as [v' acts]. cbn [fst] in Hu, Hr.
  eapply recovery_only_trans; [|apply foldl_perform_recovery].
  unfold recovery_only. app_simpl. split_and!; try done.
  - intros n. destruct (decide (n = name)) as [->|Hne].
    + by rewrite lookup_insert_eq, Hv; cbn; rewrite Hu.
    + by rewrite lookup_insert_ne.
  - intros n. destruct (decide (n = name)) as [->|Hne].
    + by rewrite lookup_insert_eq, Hv; cbn; rewrite Hr.
    + by rewrite lookup_insert_ne.
  - exists []. by rewrite app_nil_r.
Qed.

Lemma javaScriptConsoleMessage_keeps cur level msg line src now :
  keeps_page (λ v, javaScriptConsoleMessage cur v level msg line src now).
Proof.
  intros v. unfold javaScriptConsoleMessage.
  destruct (existsb _ _); [|done].
  destruct (negb _); [done|]. by destruct (5000 <? _).
Qed.

Lemma _onRenderCrash_keeps cur now : keeps_page (λ v, _onRenderCrash cur v now).
Proof.
  intros v. unfold _onRenderCrash. destruct (negb _); [done|]. by destruct (_ <? _).
Qed.

Lemma _onProgress_keeps percent : keeps_page (λ v, _onProgress v percent).
Proof. intros v. unfold _onProgress. by destruct (_ =? _). Qed.

Lemma postLoadHealthcheck_keeps cur : keeps_page (postLoadHealthcheck cur).
Proof.
  intros v. unfold postLoadHealthcheck. destruct (negb _); [done|].
  by destruct (is_blank_url _).
Qed.

Lemma after_html_keeps html now : keeps_page (λ v, after_html v html now).
Proof.
  intros v. unfold after_html. destruct (_ && _); [done|]. by destruct (_ && _).
Qed.

Lemma _maybeReloadOnBlank_keeps res now : keeps_page (λ v, _maybeReloadOnBlank v res now).
Proof. intros v. unfold _maybeReloadOnBlank. by destruct (_ && _). Qed.

Lemma run_callback_keeps cb p now cur : keeps_page (run_callback cb p now cur).
Proof.
  intros v. destruct cb, p; cbn [run_callback]; try done.
  all: try (destruct (negb _); [apply postLoadHealthcheck_keeps|done]).
  all: try (destruct (bool_decide _); [apply postLoadHealthcheck_keeps|done]).
  - apply after_html_keeps.
  - apply _maybeReloadOnBlank_keeps.
Qed.

Lemma deliver_recovery_only k p now a : recovery_only a (deliver k p now a).
Proof.
  unfold deliver. destruct (pending a !! k) as [pd|]; [|apply recovery_only_refl].
  set (a1 := set_pending _ a).
  assert (recovery_only a a1) as H1.
  { subst a1. unfold recovery_only. app_simpl. split_and!; try done.
    exists []. by rewrite app_nil_r. }
  destruct (browsers a1 !! (target pd).1) as [v|]; [|done].
  case_bool_decide; [|done].
  eapply recovery_only_trans; [exact H1|]. apply on_view_recovery, run_callback_keeps.
Qed.

(** X15.  A console message, a renderer crash, a load progress signal and
    the delivery of any waiting callback never raise, and change nothing but
    the stamps and counters of views and the waiting callbacks: profiles,
    focus, popups, remembered locations, directories and the configuration
    file stay, every view keeps its identity and its location, and the only
    effects are log lines and reloads. *)
Theorem recovery_only_reloads (ev : Event) (a : App) :
  is_recovery_event ev = true →
  ∃ a', handle ev a = Some a' ∧ recovery_only a a'.
Proof.
  destruct ev; try done; intros _; cbn [handle]; eexists; (split; [reflexivity|]).
  - apply on_view_recovery, javaScriptConsoleMessage_keeps.
  - apply on_view_recovery, _onRenderCrash_keeps.
  - apply on_view_recovery, _onProgress_keeps.
  - apply deliver_recovery_only.
Qed.

Lemma recovery_only_reloads_witness :
  let a0 := boot default_config NoFile "/data" "" ∅ in
  ∃ a, run_events [EvAddAccount; EvUrlChanged "Steam 1" HOME] a0 = Some a ∧
  ∃ a', handle (EvRenderCrash "Steam 1" 10000) a = Some a' ∧ recovery_only a a'.
Proof.
  intros a0. eexists. split; [vm_compute; reflexivity|].
  apply (recovery_only_reloads (EvRenderCrash "Steam 1" 10000)). reflexivity.
Defined.

(** ** The probe script and the reload it asks for *)

(** X16.  The result of the probe script leads [_maybeReloadOnBlank] to
    reload exactly when the page has no body, or a body with at most 20
    non-blank characters, at most 5 children and no image, video, canvas or
    frame, and more than 5000 ms have passed since the last blank-page
    reload and fewer than 3 were made; the reload stamps the clock and
    counts one more.  A script that throws never leads to a reload, and in
    every other case the view is left as it is. *)
Theorem blank_probe_reload_iff (d : Dom) (v : View) (now : Z) :
  let r := _maybeReloadOnBlank v (blank_probe d) now in
  (r.2 = [ActReload] ↔
     probe_empty d ∧ 5000 < now - last_blank_fix_ms v ∧ blank_fix_tries v < 3) ∧
  (r.2 = [ActReload] →
     last_blank_fix_ms r.1 = now ∧ blank_fix_tries r.1 = blank_fix_tries v + 1) ∧
  (r.2 ≠ [ActReload] → r = (v, [])) ∧
  (js_blank (blank_probe d) = true ↔ probe_empty d).
Proof.
  cbv zeta.
  assert (js_blank (blank_probe d) = true ↔ probe_empty d) as Hjs.
  { destruct d as [|txt nodes heavy|]; cbn [probe_empty].
    - by vm_compute.
    - assert (js_blank (blank_probe (Body txt nodes heavy))
              = negb ((20 <? txt) || (5 <? nodes) || (0 <? heavy))) as -> by reflexivity.
      destruct (20 <? txt) eqn:E1, (5 <? nodes) eqn:E2, (0 <? heavy) eqn:E3; cbn; lia.
    - vm_compute. split; [done|tauto]. }
  assert (∀ res, _maybeReloadOnBlank v res now =
    if js_blank res && (5000 <? now - last_blank_fix_ms v) && (blank_fix_tries v <? 3)
    then (set_blank_fix_tries (blank_fix_tries v + 1) (set_last_blank_fix_ms now v), [ActReload])
    else (v, [])) as Hm by (by intros []).
  rewrite Hm. rewrite <- Hjs.
  destruct (js_blank (blank_probe d)); cbn [andb];
    destruct (5000 <? now - last_blank_fix_ms v) eqn:E1; cbn [andb];
    destruct (blank_fix_tries v <? 3) eqn:E2; cbn [fst snd];
    repeat split; try done; try lia; intros; try tauto; try (destruct_and?; try done; lia).
Qed.

(** ** Download progress *)

Lemma progress_messages_after last ts :
  Forall (λ m : Z * (Z * Z), last + 120 ≤ m.1) (progress_messages last ts).
Proof.
  revert last. induction ts as [|t ts IH]; intros last; cbn [progress_messages]; [done|].
  unfold progress_update. cbv zeta.
  destruct (tick_now t - last <? 120) eqn:E; [apply IH|].
  assert (Forall (λ m : Z * (Z * Z), last + 120 ≤ m.1) (progress_messages (tick_now t) ts)).
  { eapply Forall_impl; [apply IH|]. cbn. intros. lia. }
  destruct (0 <? tick_total t); [|done]. constructor; [cbn; lia|done].
Qed.

(** X17.  The progress messages of one download are at least 120 ms
    apart, none is shown before the clock reads 120, and each shows the
    numbers of a signal with a positive total.  A signal that passes the
    throttle with no positive total shows nothing and still silences the
    signals of the next 120 ms. *)
Theorem download_progress_throttled (ts : list ProgressTick) :
  let shown := on_download_progress ts in
  StronglySorted (λ m m' : Z * (Z * Z), m.1 + 120 ≤ m'.1) shown ∧
  Forall (λ m : Z * (Z * Z),
            120 ≤ m.1 ∧ 0 < m.2.2 ∧
            {| tick_now := m.1; tick_received := m.2.1; tick_total := m.2.2 |} ∈ ts)
         shown ∧
  (∀ t, tick_now t < 120 → on_download_progress (t :: ts) = on_download_progress ts) ∧
  (∀ t t', 120 ≤ tick_now t → tick_total t ≤ 0 → tick_now t' < tick_now t + 120 →
     on_download_progress (t :: t' :: ts) = progress_messages (tick_now t) ts).
Proof.
  cbv zeta. unfold on_download_progress. split; [|split; [|split]].
  - generalize 0. induction ts as [|t ts IH]; intros last; cbn [progress_messages];
      [constructor|].
    unfold progress_update. cbv zeta.
    destruct (tick_now t - last <? 120); [apply IH|].
    destruct (0 <? tick_total t); [|apply IH].
    constructor; [apply IH|]. apply (progress_messages_after (tick_now t) ts).
  - assert (∀ last, 0 ≤ last →
      Forall (λ m : Z * (Z * Z), 120 ≤ m.1 ∧ 0 < m.2.2 ∧
                {| tick_now := m.1; tick_received := m.2.1; tick_total := m.2.2 |} ∈ ts)
             (progress_messages last ts)) as H; [|by apply H].
    induction ts as [|t ts IH]; intros last Hlast; cbn [progress_messages]; [done|].
    unfold progress_update. cbv zeta.
    assert (∀ l, Forall (λ m : Z * (Z * Z), 120 ≤ m.1 ∧ 0 < m.2.2 ∧
                   {| tick_now := m.1; tick_received := m.2.1; tick_total := m.2.2 |} ∈ ts) l →
                 Forall (λ m : Z * (Z * Z), 120 ≤ m.1 ∧ 0 < m.2.2 ∧
                   {| tick_now := m.1; tick_received := m.2.1; tick_total := m.2.2 |} ∈ t :: ts) l)
      as Hw.
    { intros l Hl. eapply Forall_impl; [exact Hl|].
      intros m (?&?&?). repeat split; try done. by right. }
    destruct (tick_now t - last <? 120) eqn:E; [by apply Hw, IH|].
    destruct (0 <? tick_total t) eqn:E2; [|apply Hw, IH; lia].
    constructor; [|apply Hw, IH; lia].
    cbn. repeat split; [lia|lia|]. destruct t. by left.
  - intros t Ht. cbn [progress_messages]. unfold progress_update. cbv zeta.
    by rewrite (proj2 (Z.ltb_lt _ _)) by lia.
  - intros t t' Ht Htot Ht'. cbn [progress_messages]. unfold progress_update. cbv zeta.
    rewrite (proj2 (Z.ltb_ge _ _)) by lia.
    rewrite (proj2 (Z.ltb_ge 0 (tick_total t))) by lia.
    by rewrite (proj2 (Z.ltb_lt _ _)) by lia.
Qed.

(** ** The widths of the side panels *)

Lemma switchAccount_ui acc a :
  let a' := switchAccount acc a in
  leftBarWidth a' = leftBarWidth a ∧
  accountsPanelDefaultWidth a' = accountsPanelDefaultWidth a ∧
  accountsVisible a' = accountsVisible a.
Proof.
  unfold switchAccount. destruct (browsers a !! acc) as [v|]; [|done].
  by destruct (is_blank_url (view_url v)).
Qed.

Lemma addAccount_ui a a' :
  addAccount a = Some a' →
  leftBarWidth a' = leftBarWidth a ∧
  accountsPanelDefaultWidth a' = accountsPanelDefaultWidth a ∧
  accountsVisible a' = accountsVisible a.
Proof.
  unfold addAccount. destruct (nextSteamName a) as [acc|]; [|done].
  cbn [mbind option_bind]. rewrite createProfile_true.
  set (a1 := createProfile acc false a).
  destruct (switchAccount_ui acc a1) as (Hl & Hw & Hv).
  set (a2 := switchAccount acc a1) in *.
  set (a3 := if bool_decide (acc ∈ profiles a2) then a2
             else set_profiles (profiles a2 ++ [acc]) a2).
  assert (leftBarWidth a3 = leftBarWidth a2 ∧
          accountsPanelDefaultWidth a3 = accountsPanelDefaultWidth a2 ∧
          accountsVisible a3 = accountsVisible a2) as (Hl3 & Hw3 & Hv3).
  { subst a3. by case_bool_decide. }
  destruct (browsers (saveConfig (set_lastActive acc a3)) !! acc) as [v|]; [|done].
  cbn [mbind option_bind]. destruct (is_blank_url (view_url v)).
  - unfold navigateCurrent. case_bool_decide.
    + intros [= <-]. app_simpl. by rewrite Hl3, Hw3, Hv3, Hl, Hw, Hv.
    + destruct (browsers _ !! currentName _); [|done]. intros [= <-]. app_simpl.
      by rewrite Hl3, Hw3, Hv3, Hl, Hw, Hv.
  - intros [= <-]. app_simpl. by rewrite Hl3, Hw3, Hv3, Hl, Hw, Hv.
Qed.

Lemma deleteProfile_ui name answer rm a :
  let a' := deleteProfile name answer rm a in
  leftBarWidth a' = leftBarWidth a ∧
  accountsPanelDefaultWidth a' = accountsPanelDefaultWidth a ∧
  accountsVisible a' = accountsVisible a.
Proof.
  cbv zeta. destruct (browsers a !! name) as [v|] eqn:Hv.
  2:{ by rewrite deleteProfile_absent. }
  destruct answer.
  2:{ by rewrite (deleteProfile_declined _ _ _ _ Hv). }
  assert (∃ m, deleteProfile name true rm a
      = (if bool_decide (lastActive m = "") then m else switchAccount (lastActive m) m) ∧
      leftBarWidth m = leftBarWidth a ∧
      accountsPanelDefaultWidth m = accountsPanelDefaultWidth a ∧
      accountsVisible m = accountsVisible a) as (m & -> & Hl & Hw & Hvis).
  { unfold deleteProfile. rewrite Hv. cbn [negb].
    eexists. split; [reflexivity|].
    app_simpl.
    destruct (popupsByProfile a !! name) as [wins|]; app_simpl;
      destruct (bool_decide (_ ∈ _ ∪ _)); destruct rm as [e|]; app_simpl;
      case_bool_decide; by app_simpl. }
  destruct (bool_decide (lastActive m = "")); [done|].
  destruct (switchAccount_ui (lastActive m) m) as (-> & -> & ->). done.
Qed.

Lemma handle_widths ev a a' :
  handle ev a = Some a' →
  leftBarWidth a' = leftBarWidth a ∧
  (accountsPanelDefaultWidth a' = accountsPanelDefaultWidth a
   ∨ clamped (accountsPanelDefaultWidth a')).
Proof.
  assert (∀ b, disk_follows a b →
    leftBarWidth b = leftBarWidth a ∧
    (accountsPanelDefaultWidth b = accountsPanelDefaultWidth a
     ∨ clamped (accountsPanelDefaultWidth b))) as Hd.
  { by intros b (_ & _ & _ & _ & ? & ? & _). }
  destruct ev; cbn [handle]; try (intros [= <-]).
  - intros Hadd. destruct (addAccount_ui _ _ Hadd) as (? & ? & _). auto.
  - destruct (switchAccount_ui acc a) as (? & ? & _). auto.
  - destruct (deleteProfile_ui name answer rm a) as (? & ? & _). auto.
  - auto.
  - unfold unregisterPopup. destruct (popupsByProfile a !! name) as [[|x arr]|]; auto.
    destruct (remove_window id (x :: arr)); auto.
  - apply Hd, _onUrlChanged_disk.
  - apply Hd, on_view_disk.
  - apply Hd, on_view_disk.
  - apply Hd, on_view_disk.
  - apply Hd, deliver_disk.
  - apply Hd, toggleAccountsPanel_disk.
  - apply Hd, _onSplitterMoved_disk.
Qed.

Lemma boot_widths c f data geo ds :
  let a := boot c f data geo ds in
  leftBarWidth a = cfg_leftBarWidth c ∧
  accountsPanelDefaultWidth a = cfg_accountsPanelDefaultWidth c.
Proof.
  cbv zeta. unfold boot. set (a0 := mkApp _ _ _ _ _ _ _ _ _ _ _ _ _ _ _ _).
  destruct (foldl_createProfile_disk (profiles a0) a0) as (Hc & _).
  set (a1 := foldl _ a0 _) in *.
  assert (leftBarWidth a1 = cfg_leftBarWidth c ∧
          accountsPanelDefaultWidth a1 = cfg_accountsPanelDefaultWidth c) as [H1 H2].
  { apply (f_equal cfg_leftBarWidth) in Hc as Hc1.
    apply (f_equal cfg_accountsPanelDefaultWidth) in Hc as Hc2. done. }
  case_bool_decide; [|done].
  destruct (switchAccount_ui (lastActive a1) a1) as (-> & -> & _). done.
Qed.

(** X18.  In every reachable state the width of the left bar is the one
    loaded at start-up, and the width of the accounts panel is the one
    loaded or lies between 240 and 480.  A move of the splitter is ignored
    while the panel is hidden; while it is shown, the second size is
    clamped to 240..480, stored and written to the configuration file. *)
Theorem panel_widths_kept_or_clamped (c : Config) (a : App) :
  reachable c a →
  leftBarWidth a = cfg_leftBarWidth c ∧
  (accountsPanelDefaultWidth a = cfg_accountsPanelDefaultWidth c
   ∨ clamped (accountsPanelDefaultWidth a)) ∧
  (∀ sizes, let a' := _onSplitterMoved sizes a in
     (accountsVisible a = false → a' = a) ∧
     (∀ s0 s1 rest, accountsVisible a = true → sizes = s0 :: s1 :: rest →
        accountsPanelDefaultWidth a' = Z.max 240 (Z.min 480 s1) ∧
        clamped (accountsPanelDefaultWidth a') ∧ synced a')).
Proof.
  intros Hreach. split; [|split].
  - induction Hreach as [f data geo ds|a ev a' Hreach IH Hstep].
    + apply boot_widths.
    + destruct (handle_widths _ _ _ Hstep) as [-> _]. done.
  - induction Hreach as [f data geo ds|a ev a' Hreach IH Hstep].
    + left. apply boot_widths.
    + destruct (handle_widths _ _ _ Hstep) as [_ [->|?]]; [done|by right].
  - intros sizes. cbv zeta. unfold _onSplitterMoved. split.
    + intros ->. by destruct sizes as [|? [|? ?]].
    + intros s0 s1 rest -> ->. unfold clamped, synced. app_simpl.
      repeat split; try done; lia.
Qed.

Lemma panel_widths_kept_or_clamped_witness :
  let c := default_config in
  let a0 := boot c NoFile "/data" "" ∅ in
  ∃ a, run_events [EvAddAccount; EvToggleAccountsPanel;
                   EvSplitterMoved [160; 1000; 900]] a0 = Some a ∧
  accountsVisible a = true ∧ accountsPanelDefaultWidth a = 480 ∧
  leftBarWidth a = cfg_leftBarWidth c ∧
  (accountsPanelDefaultWidth a = cfg_accountsPanelDefaultWidth c
   ∨ clamped (accountsPanelDefaultWidth a)) ∧
  (∀ sizes, let a' := _onSplitterMoved sizes a in
     (accountsVisible a = false → a' = a) ∧
     (∀ s0 s1 rest, accountsVisible a = true → sizes = s0 :: s1 :: rest →
        accountsPanelDefaultWidth a' = Z.max 240 (Z.min 480 s1) ∧
        clamped (accountsPanelDefaultWidth a') ∧ synced a')).
Proof.
  intros c a0. eexists. split; [vm_compute; reflexivity|].
  split; [reflexivity|]. split; [reflexivity|].
  apply (panel_widths_kept_or_clamped c).
  eapply (run_events_reachable c
            [EvAddAccount; EvToggleAccountsPanel; EvSplitterMoved [160; 1000; 900]]).
  - apply (reach_boot c NoFile "/data" "" ∅).
  - vm_compute. reflexivity.
Defined.

(** ** A deleted name is handed out again *)

(** X19.  When the sessions "Steam 1" to "Steam k" are live and "Steam k"
    is deleted, the next [addAccount] creates and focuses "Steam k" again,
    with the same profile directory; that directory is still on disk with
    its old contents exactly when its removal failed. *)
Theorem deleted_name_reused (a : App) (k : nat) (rm : option string) :
  (1 ≤ k)%nat →
  (∀ m, (1 ≤ m ≤ k)%nat → is_Some (browsers a !! steamName m)) →
  let name := steamName k in
  let a1 := deleteProfile name true rm a in
  browsers a1 !! name = None ∧
  (profileDir_path a name ∈ dirs a1 ↔ rm ≠ None) ∧
  ∃ a2, addAccount a1 = Some a2 ∧
    currentName a2 = name ∧ is_Some (browsers a2 !! name) ∧
    profileDir_path a2 name = profileDir_path a name ∧
    dirs a2 = {[profileDir_path a name]} ∪ dirs a1.
Proof.
  intros Hk Hlive name a1.
  destruct (Hlive k ltac:(lia)) as [v Hv]. fold name in Hv.
  destruct (deleteProfile_confirmed name rm a v Hv)
    as (m & E & Hb & _ & _ & _ & _ & _ & Happ & Hdir & _).
  assert (dom (browsers a1) = dom (browsers a) ∖ {[name]} ∧ dirs a1 = dirs m ∧
          appData a1 = appData a) as (Hd1 & Hdir1 & Happ1).
  { subst a1. rewrite E. destruct (bool_decide (lastActive m = "")).
    - by rewrite Hb, dom_delete_L.
    - destruct (switchAccount_keeps (lastActive m) m) as (_ & _ & -> & _ & -> & _).
      destruct (switchAccount_fixed (lastActive m) m) as (_ & _ & -> & _).
      by rewrite Hb, dom_delete_L. }
  assert (browsers a1 !! name = None) as Hgone.
  { apply not_elem_of_dom. rewrite Hd1. set_solver. }
  split; [done|]. split.
  { rewrite Hdir1, Hdir. destruct rm; [|set_solver].
    split; [done|]. intros _. apply elem_of_union_l, elem_of_singleton_2. done. }
  destruct (addAccount_spec a1)
    as (k' & a2 & Hk' & Hadd & _ & Hc & _ & Hd2 & _ & _ & Hdir2 & Happ2 & _).
  destruct (nextSteamName_loop_sound _ _ _ _ Hk') as (Hle & Hfree & Hbelow).
  assert (k' = k) as ->.
  { destruct (decide (k' = k)) as [|Hne]; [done|]. exfalso.
    destruct (decide (k' < k)%nat) as [Hlt|Hge].
    - destruct (Hlive k' ltac:(lia)) as [v' Hv'].
      assert (steamName k' ∈ dom (browsers a1)) as Hin.
      { rewrite Hd1. apply elem_of_difference. split; [by apply elem_of_dom|].
        rewrite elem_of_singleton. intros Heq%steamName_inj. lia. }
      apply elem_of_dom in Hin as [? Hin]. by rewrite Hin in Hfree.
    - destruct (Hbelow k ltac:(lia)) as [? Hin]. unfold name in Hgone.
      by rewrite Hgone in Hin. }
  exists a2. fold name in Hc, Hd2, Hdir2. split; [done|]. split; [done|]. split.
  { apply elem_of_dom. rewrite Hd2. apply elem_of_union_l, elem_of_singleton_2. done. }
  assert (profileDir_path a1 name = profileDir_path a name) as Hp1
    by (by apply profileDir_path_appData).
  split.
  - rewrite <- Hp1. by apply profileDir_path_appData.
  - by rewrite Hdir2, Hp1.
Qed.

Lemma deleted_name_reused_witness :
  let a0 := boot default_config NoFile "/data" "" ∅ in
  ∃ a, run_events [EvAddAccount; EvAddAccount; EvAddAccount] a0 = Some a ∧
  let name := steamName 2 in
  let a1 := deleteProfile name true (Some "PermissionError") a in
  browsers a1 !! name = None ∧
  (profileDir_path a name ∈ dirs a1 ↔ Some "PermissionError" ≠ None) ∧
  ∃ a2, addAccount a1 = Some a2 ∧
    currentName a2 = name ∧ is_Some (browsers a2 !! name) ∧
    profileDir_path a2 name = profileDir_path a name ∧
    dirs a2 = {[profileDir_path a name]} ∪ dirs a1.
Proof.
  intros a0. eexists. split; [vm_compute; reflexivity|].
  apply (deleted_name_reused _ 2 (Some "PermissionError")); [lia|].
  intros m Hm.
  assert (m = 1 ∨ m = 2)%nat as [-> | ->] by lia; vm_compute; eauto.
Defined.
